(** * Intelligent Traffic Routing Advisor: a shallow embedding of [main.py]

    The advisor compares two routes A and B.  [compute_delta_inputs] turns
    the two route records into four "delta" inputs, [advise] clips them to
    their universes, stores them in the module-level simulation object
    [routing], runs the fuzzy engine and thresholds the crisp score.

    Numbers.  Python floats and ints are modelled by exact rationals [Q]
    (the integer peak value by [Z]); all comparisons of the program are
    comparisons of rationals here.

    Effects.  [routing] is one mutable object shared by every call, so the
    model threads it explicitly: a computation of type [Py A] takes the
    current simulation object and returns either a raised exception or a
    value, together with the simulation object it leaves behind.

    The library.  Membership functions and the inference engine are those
    of the fuzzy-control library imported by [main.py]; their code is not
    part of the program text.  [advise] is therefore first defined over an
    arbitrary engine ([Section Advisor]); the engine used for the
    properties of scores is modelled from the specification and marked as
    such. *)

From Stdlib Require Import ZArith QArith Qminmax Qround Lqa Lia.
From Stdlib Require Import Permutation.
From stdpp Require Import base option list gmap strings.

Open Scope Q_scope.

(** ** Python values and truthiness *)

(** The values a caller can pass as [peak_flag]. *)
Inductive PyVal : Type :=
| PyNone
| PyBool (b : bool)
| PyInt (z : Z)
| PyFloat (q : Q)
| PyStr (s : string).

(** [bool(v)]: what [1 if peak else 0] tests. *)
Definition truthy (v : PyVal) : bool :=
  match v with
  | PyNone => false
  | PyBool b => b
  | PyInt z => negb (Z.eqb z 0)
  | PyFloat q => negb (Qeq_bool q 0)
  | PyStr s => negb (String.eqb s "")
  end.

(** Exceptions derived from Python's [Exception], named by their class. *)
Inductive Exception : Type :=
| Raised (cls : string) (msg : string).

(** ** Numeric helpers *)

Definition Qlt_bool (x y : Q) : bool := negb (Qle_bool y x).

(** [np.clip(x, lo, hi)] is [minimum(hi, maximum(x, lo))]. *)
Definition np_clip (x lo hi : Q) : Q := Qmin hi (Qmax x lo).

(** [round(score, 2)]: nearest multiple of 1/100, ties to the even one. *)
Definition py_round2 (score : Q) : Q :=
  let t := score * 100 in
  let f := Qfloor t in
  let r := t - inject_Z f in
  let n := if Qlt_bool r (1 # 2) then f
           else if Qlt_bool (1 # 2) r then (f + 1)%Z
           else if Z.even f then f else (f + 1)%Z in
  inject_Z n / 100.

(** A division that reports a zero divisor instead of producing a value. *)
Definition checked_div (n d : Q) : option Q :=
  if Qeq_bool d 0 then None else Some (n / d).

Fixpoint Qsum (l : list Q) : Q :=
  match l with
  | [] => 0
  | x :: l' => x + Qsum l'
  end.

(** ** Routes and results *)

Record Route : Type := { density : Q; speed : Q; incident : Q }.

Record Result : Type :=
  { score : Q;
    recommendation : string;
    raw : Q * Q * Q * Z }.

Definition TakeRouteA : string := "Take Route A".
Definition TakeRouteB : string := "Take Route B".
Definition BothComparable : string := "Both routes comparable".
Definition AmbiguousNoRules : string := "Ambiguous (No matching rules)".
Definition ErrorNeutral : string := "Error/Neutral".

(** ** Fuzzy sets and rules *)

Inductive Shape : Type :=
| Triangular (a b c : Q)
| Trapezoidal (a b c d : Q).

(** Parameters in the order the shapes require. *)
Definition valid_shape (s : Shape) : Prop :=
  match s with
  | Triangular a b c => a <= b /\ b <= c
  | Trapezoidal a b c d => a <= b /\ b <= c /\ c <= d
  end.

(** The antecedent of a rule: terms [variable[label]] joined by [&], [|]. *)
Inductive Antecedent : Type :=
| Term (var label : string)
| TermAnd (l r : Antecedent)
| TermOr (l r : Antecedent).

(** [ctrl.Rule(antecedent, delta_score[label])]. *)
Record Rule : Type := { antecedent : Antecedent; consequent : string }.

(** ** The shared simulation object *)

(** [routing = ctrl.ControlSystemSimulation(routing_ctrl)]: the rule base
    it was built from, and its [input] and [output] dictionaries. *)
Record ControlSystemSimulation : Type :=
  { ctrl : list Rule;
    input : gmap string Q;
    output : gmap string Q }.

(** Computations over the shared object that may raise. *)
Definition Py (A : Type) : Type :=
  ControlSystemSimulation -> (Exception + A) * ControlSystemSimulation.

#[global] Instance Py_ret : MRet Py := fun A (x : A) sim => (inr x, sim).

#[global] Instance Py_bind : MBind Py := fun A B (f : A -> Py B) (m : Py A) sim =>
  match m sim with
  | (inl e, sim') => (inl e, sim')
  | (inr x, sim') => f x sim'
  end.

(** [try: m  except Exception as e: ...]: the exception becomes a value. *)
Definition try_except {A : Type} (m : Py A) : Py (Exception + A) := fun sim =>
  match m sim with
  | (r, sim') => (inr r, sim')
  end.

(** [routing.input[key] = value] *)
Definition set_input (key : string) (value : Q) : Py unit := fun sim =>
  (inr tt, {| ctrl := ctrl sim; input := <[key := value]> (input sim);
              output := output sim |}).

(** [routing.output] *)
Definition get_output : Py (gmap string Q) := fun sim => (inr (output sim), sim).

(** ** Advisor functions *)

Definition compute_delta_inputs (A B : Route) (peak_flag : PyVal)
  : Q * Q * Q * PyVal :=
  let d_density := density A - density B in
  let d_speed := speed A - speed B in
  let d_inc := incident B - incident A in
  (d_density, d_speed, d_inc, peak_flag).

(** Interpretation of the score: [> 60] prefer A, [< 40] prefer B. *)
Definition decide_rec (score : Q) : string :=
  if Qlt_bool 60 score then TakeRouteA
  else if Qlt_bool score 40 then TakeRouteB
  else BothComparable.

(** The four values [advise] hands to the engine and reports as [raw]. *)
Definition clipped_inputs (routeA routeB : Route) (peak_flag : PyVal)
  : Q * Q * Q * Z :=
  let '(d_density, d_speed, d_inc, peak) :=
    compute_delta_inputs routeA routeB peak_flag in
  let d_density := np_clip d_density (-200) 200 in
  let d_speed := np_clip d_speed (-120) 120 in
  let d_inc := np_clip d_inc (-10) 10 in
  let peak_val := if truthy peak then 1%Z else 0%Z in
  (d_density, d_speed, d_inc, peak_val).

(** The shared object as lines 156-159 of [advise] leave it. *)
Definition after_stores (sim : ControlSystemSimulation) (v : Q * Q * Q * Z)
  : ControlSystemSimulation :=
  let '(d_density, d_speed, d_inc, peak_val) := v in
  {| ctrl := ctrl sim;
     input := <["delta_time_peak" := inject_Z peak_val]>
              (<["delta_incident" := d_inc]>
              (<["delta_speed" := d_speed]>
              (<["delta_density" := d_density]> (input sim))));
     output := output sim |}.

Section Advisor.

(** [routing.compute()], acting on the shared object. *)
Variable compute : Py unit.

(** [advise(routeA, routeB, peak_flag)]; [verbose] only prints. *)
Definition advise (routeA routeB : Route) (peak_flag : PyVal) : Py Result :=
  let '(d_density, d_speed, d_inc, peak_val) :=
    clipped_inputs routeA routeB peak_flag in
  set_input "delta_density" d_density ;;
  set_input "delta_speed" d_speed ;;
  set_input "delta_incident" d_inc ;;
  set_input "delta_time_peak" (inject_Z peak_val) ;;
  r ← try_except compute ;
  match r with
  | inl e =>
      mret {| score := 50; recommendation := ErrorNeutral;
              raw := (d_density, d_speed, d_inc, peak_val) |}
  | inr _ =>
      out ← get_output ;
      match out !! "delta_score" with
      | None =>
          mret {| score := 50; recommendation := AmbiguousNoRules;
                  raw := (d_density, d_speed, d_inc, peak_val) |}
      | Some score =>
          let rec := decide_rec score in
          mret {| score := py_round2 score; recommendation := rec;
                  raw := (d_density, d_speed, d_inc, peak_val) |}
      end
  end.

End Advisor.

(** What [advise] returns and leaves behind, by the outcome of the engine
    on the object holding the four stored inputs. *)
Definition finish (v : Q * Q * Q * Z)
    (r : (Exception + unit) * ControlSystemSimulation)
  : (Exception + Result) * ControlSystemSimulation :=
  match r with
  | (inl _, sim2) =>
      (inr {| score := 50; recommendation := ErrorNeutral; raw := v |}, sim2)
  | (inr _, sim2) =>
      match output sim2 !! "delta_score" with
      | None =>
          (inr {| score := 50; recommendation := AmbiguousNoRules; raw := v |},
           sim2)
      | Some s =>
          (inr {| score := py_round2 s; recommendation := decide_rec s;
                  raw := v |}, sim2)
      end
  end.

(** ** The membership function library *)

(** Modelled from the spec: the library functions [trimf] and [trapmf] that
    [main.py] imports are not part of the program text.  Section 4.1:
    Triangular(a,b,c) is 1 at x=b, 0 for x<=a or x>=c, the ramp
    (x-a)/(b-a) for a<x<b and the ramp (c-x)/(c-b) for b<x<c;
    Trapezoidal(a,b,c,d) is 0 outside [a,d], 1 on [b,c], and ramps
    linearly on [a,b] and on [c,d].  [None] is a division by zero. *)
Definition membership (s : Shape) (x : Q) : option Q :=
  match s with
  | Triangular a b c =>
      if Qeq_bool x b then Some 1
      else if Qle_bool x a || Qle_bool c x then Some 0
      else if Qlt_bool x b then checked_div (x - a) (b - a)
      else checked_div (c - x) (c - b)
  | Trapezoidal a b c d =>
      if Qlt_bool x a || Qlt_bool d x then Some 0
      else if Qle_bool b x && Qle_bool x c then Some 1
      else if Qlt_bool x b then checked_div (x - a) (b - a)
      else checked_div (d - x) (d - c)
  end.

(** The plateau of a shape: [b] for a triangle, [[b,c]] for a trapezoid. *)
Definition on_plateau (s : Shape) (x : Q) : Prop :=
  match s with
  | Triangular a b c => x == b
  | Trapezoidal a b c d => b <= x /\ x <= c
  end.

(** Outside the support interval: [[a,c]] for a triangle, [[a,d]] for a
    trapezoid. *)
Definition outside_support (s : Shape) (x : Q) : Prop :=
  match s with
  | Triangular a b c => x < a \/ c < x
  | Trapezoidal a b c d => x < a \/ d < x
  end.

(** ** Linguistic variables of the delta system *)

Definition delta_density : gmap string Shape :=
  <["B_much_better" := Trapezoidal (-200) (-200) (-80) (-50)]>
  (<["B_better" := Triangular (-70) (-45) (-20)]>
  (<["neutral" := Triangular (-20) 0 20]>
  (<["A_better" := Triangular 20 45 70]>
  (<["A_much_better" := Trapezoidal 50 80 200 200]> ∅)))).

Definition delta_speed : gmap string Shape :=
  <["B_much_better" := Trapezoidal (-120) (-120) (-40) (-20)]>
  (<["B_better" := Triangular (-30) (-18) (-8)]>
  (<["neutral" := Triangular (-5) 0 5]>
  (<["A_better" := Triangular 8 18 30]>
  (<["A_much_better" := Trapezoidal 20 40 120 120]> ∅)))).

Definition delta_incident : gmap string Shape :=
  <["B_much_better" := Trapezoidal (-10) (-10) (-5) (-3)]>
  (<["B_better" := Triangular (-4) (-5 # 2) (-1)]>
  (<["neutral" := Triangular (-1) 0 1]>
  (<["A_better" := Triangular 1 (5 # 2) 4]>
  (<["A_much_better" := Trapezoidal 3 5 10 10]> ∅)))).

Definition delta_time_peak : gmap string Shape :=
  <["peak" := Triangular 1 1 1]>
  (<["offpeak" := Triangular 0 0 0]> ∅).

Definition delta_score : gmap string Shape :=
  <["strong_A" := Trapezoidal 70 85 100 100]>
  (<["weak_A" := Triangular 50 65 80]>
  (<["neutral" := Triangular 45 50 55]>
  (<["weak_B" := Triangular 20 35 50]>
  (<["strong_B" := Trapezoidal 0 0 10 30]> ∅)))).

(** The antecedent variables, by label. *)
Definition antecedents : gmap string (gmap string Shape) :=
  <["delta_time_peak" := delta_time_peak]>
  (<["delta_incident" := delta_incident]>
  (<["delta_speed" := delta_speed]>
  (<["delta_density" := delta_density]> ∅))).

(** [delta_score.universe = np.arange(0, 101, 1)] *)
Definition delta_score_universe : list Q :=
  map (fun n => inject_Z (Z.of_nat n)) (seq 0 101).

(** ** The rule set, in the order of the [rules.append] calls *)

Definition rule (a : Antecedent) (c : string) : Rule :=
  {| antecedent := a; consequent := c |}.

Definition rules : list Rule :=
  [ rule (Term "delta_speed" "A_much_better") "strong_A";
    rule (Term "delta_speed" "B_much_better") "strong_B";
    rule (Term "delta_speed" "A_better") "weak_A";
    rule (Term "delta_speed" "B_better") "weak_B";
    rule (Term "delta_density" "A_much_better") "strong_A";
    rule (Term "delta_density" "B_much_better") "strong_B";
    rule (Term "delta_density" "A_better") "weak_A";
    rule (Term "delta_density" "B_better") "weak_B";
    rule (Term "delta_incident" "A_much_better") "strong_A";
    rule (Term "delta_incident" "B_much_better") "strong_B";
    rule (Term "delta_incident" "A_better") "weak_A";
    rule (Term "delta_incident" "B_better") "weak_B";
    rule (TermAnd (Term "delta_time_peak" "peak")
                  (Term "delta_density" "A_better")) "strong_A";
    rule (TermAnd (Term "delta_time_peak" "peak")
                  (Term "delta_density" "B_better")) "strong_B";
    rule (TermAnd (TermAnd (Term "delta_density" "neutral")
                           (Term "delta_speed" "neutral"))
                  (Term "delta_incident" "neutral")) "neutral" ].

(** [routing] as the module leaves it after line 130: nothing set yet. *)
Definition routing : ControlSystemSimulation :=
  {| ctrl := rules; input := ∅; output := ∅ |}.

(** ** The inference engine *)

(** Modelled from the spec: fuzzification (section 4.3, phase 1) of the
    crisp input of variable [var] in its fuzzy set [label]; the library's
    fuzzifier is not part of the program text.  A variable, label or input
    that is not defined is a fault. *)
Definition fuzzify (inp : gmap string Q) (var label : string) : option Q :=
  v ← antecedents !! var ;
  sh ← v !! label ;
  x ← inp !! var ;
  membership sh x.

(** Modelled from the spec: the firing strength of an antecedent expression
    (section 4.3, phase 2), AND as min and OR as max; the library's rule
    evaluator is not part of the program text. *)
Fixpoint firing (inp : gmap string Q) (a : Antecedent) : option Q :=
  match a with
  | Term var label => fuzzify inp var label
  | TermAnd l r => x ← firing inp l ; y ← firing inp r ; Some (Qmin x y)
  | TermOr l r => x ← firing inp l ; y ← firing inp r ; Some (Qmax x y)
  end.

(** Modelled from the spec: a rule's firing strength paired with the fuzzy
    set of its consequent label (section 4.3, phase 2). *)
Definition activate (inp : gmap string Q) (r : Rule) : option (Q * Shape) :=
  w ← firing inp (antecedent r) ;
  sh ← delta_score !! consequent r ;
  Some (w, sh).

(** Modelled from the spec: implication is min, the consequent set clipped
    to the firing strength (section 4.3, phase 2). *)
Definition clip_consequent (c : Q * Shape) (x : Q) : option Q :=
  d ← membership (snd c) x ;
  Some (Qmin (fst c) d).

(** Modelled from the spec: aggregation is the pointwise maximum of the
    clipped consequent sets (section 4.3, phase 2). *)
Fixpoint aggregate (cs : list (Q * Shape)) (x : Q) : option Q :=
  match cs with
  | [] => Some 0
  | c :: cs' =>
      d ← clip_consequent c x ;
      acc ← aggregate cs' x ;
      Some (Qmax d acc)
  end.

(** Modelled from the spec: the centroid
    [sum (x * degree x) / sum (degree x)] over the sampled universe
    (section 4.3, phase 3); [None] is the no-match condition, the
    aggregated degree being zero everywhere. *)
Definition centroid (xs ds : list Q) : option Q :=
  let den := Qsum ds in
  if Qeq_bool den 0 then None
  else Some (Qsum (zip_with Qmult xs ds) / den).

(** Modelled from the spec: the aggregated output membership curve sampled
    over the universe of [delta_score] (section 4.3, phases 1 and 2); the
    library's rule evaluation is not part of the program text.  [None] is
    a computation fault. *)
Definition aggregated_output (rs : list Rule) (inp : gmap string Q)
  : option (list Q) :=
  cs ← mapM (activate inp) rs ;
  mapM (aggregate cs) delta_score_universe.

(** Modelled from the spec: the three phases of section 4.3 in order.  The
    outer [None] is a computation fault, the inner one the no-match
    condition. *)
Definition infer (rs : list Rule) (inp : gmap string Q) : option (option Q) :=
  ds ← aggregated_output rs inp ;
  Some (centroid delta_score_universe ds).

(** Modelled from the spec: [routing.compute()] of the library, which is not
    part of the program text.  It runs the engine on the inputs stored in
    the shared object and replaces its [output]: a crisp score under
    ["delta_score"], nothing in the no-match condition (sections 4.3, 4.4);
    a fault is raised as an exception (section 7). *)
Definition engine_compute : Py unit := fun sim =>
  match infer (ctrl sim) (input sim) with
  | None => (inl (Raised "ValueError" "computation fault"), sim)
  | Some o =>
      (inr tt,
       {| ctrl := ctrl sim; input := input sim;
          output := match o with
                    | None => ∅
                    | Some q => {["delta_score" := q]}
                    end |})
  end.

(** Running a computation on a simulation object. *)
Definition result_of {A : Type} (m : Py A) (sim : ControlSystemSimulation)
  : Exception + A := fst (m sim).

Definition state_after {A : Type} (m : Py A) (sim : ControlSystemSimulation)
  : ControlSystemSimulation := snd (m sim).

(** Two outcomes of the inference are the same: both a fault, both the
    no-match condition, or equal scores. *)
Definition same_score (a b : option (option Q)) : Prop :=
  option_Forall2 (option_Forall2 Qeq) a b.

(** The clear-winner scenario of [run_checks]. *)
Definition routeA1 : Route := {| density := 20; speed := 80; incident := 0 |}.
Definition routeB1 : Route := {| density := 120; speed := 30; incident := 2 |}.

(** ** Demo and utilities *)

(** The integers one iteration of [generate_demo_csv] draws from the
    generator, in the order it draws them. *)
Record Scenario : Type :=
  { draw_A_density : Z; draw_A_speed : Z; draw_A_incident : Z;
    draw_B_density : Z; draw_B_speed : Z; draw_B_incident : Z;
    draw_peak : Z }.

(** What the generator can yield: [integers(0, 161)], [integers(10, 101)],
    [integers(0, 6)] for each route and [choice([0, 1])] for the peak. *)
Definition drawn (d : Scenario) : Prop :=
  (0 <= draw_A_density d <= 160)%Z /\ (10 <= draw_A_speed d <= 100)%Z /\
  (0 <= draw_A_incident d <= 5)%Z /\
  (0 <= draw_B_density d <= 160)%Z /\ (10 <= draw_B_speed d <= 100)%Z /\
  (0 <= draw_B_incident d <= 5)%Z /\
  (draw_peak d = 0%Z \/ draw_peak d = 1%Z).

(** A row of the demo table: the nine columns of the CSV file. *)
Record DemoRow : Type :=
  { A_density : Z; A_speed : Z; A_incident : Z;
    B_density : Z; B_speed : Z; B_incident : Z;
    peak : Z; row_score : Q; row_recommendation : string }.

(** [{"density": int(..), "speed": int(..), "incident": int(..)}] *)
Definition int_route (d s i : Z) : Route :=
  {| density := inject_Z d; speed := inject_Z s; incident := inject_Z i |}.

(** A row of [run_checks]. *)
Record CheckRow : Type :=
  { chk_A : Route; chk_B : Route; chk_peak : Z;
    chk_score : Q; chk_rec : string; chk_expected : string;
    chk_passed : bool }.

(** The three cases [run_checks] appends to [tests]. *)
Definition tests : list (Route * Route * Z * string) :=
  [ ({| density := 20; speed := 80; incident := 0 |},
     {| density := 120; speed := 30; incident := 2 |}, 1%Z, "Take Route A");
    ({| density := 150; speed := 25; incident := 3 |},
     {| density := 40; speed := 70; incident := 0 |}, 1%Z, "Take Route B");
    ({| density := 80; speed := 50; incident := 1 |},
     {| density := 82; speed := 48; incident := 1 |}, 0%Z,
     "Both routes comparable") ].

Section Utilities.

Variable compute : Py unit.

(** The loop of [generate_demo_csv] over the drawn values, one [advise]
    call and one appended row per iteration; writing the file is left out. *)
Fixpoint generate_demo_csv (draws : list Scenario) : Py (list DemoRow) :=
  match draws with
  | [] => mret []
  | d :: draws' =>
      let A := int_route (draw_A_density d) (draw_A_speed d)
                         (draw_A_incident d) in
      let B := int_route (draw_B_density d) (draw_B_speed d)
                         (draw_B_incident d) in
      res ← advise compute A B (PyInt (draw_peak d)) ;
      rows ← generate_demo_csv draws' ;
      mret ({| A_density := draw_A_density d; A_speed := draw_A_speed d;
               A_incident := draw_A_incident d;
               B_density := draw_B_density d; B_speed := draw_B_speed d;
               B_incident := draw_B_incident d;
               peak := draw_peak d;
               row_score := score res;
               row_recommendation := recommendation res |} :: rows)
  end.

(** The loop of [run_checks] over its cases. *)
Fixpoint run_tests (ts : list (Route * Route * Z * string))
  : Py (list CheckRow) :=
  match ts with
  | [] => mret []
  | (a, b, p, exp) :: ts' =>
      res ← advise compute a b (PyInt p) ;
      let ok := String.eqb (recommendation res) exp in
      results ← run_tests ts' ;
      mret ({| chk_A := a; chk_B := b; chk_peak := p;
               chk_score := score res; chk_rec := recommendation res;
               chk_expected := exp; chk_passed := ok |} :: results)
  end.

Definition run_checks : Py (list CheckRow) := run_tests tests.

End Utilities.

(** ** Command line interface *)

(** The namespace [parse_args] returns.  [--peak] is declared with
    [type=int, choices=[0, 1], default=0], so the parser yields 0 or 1
    only: [false] is 0 and [true] is 1. *)
Record Args : Type :=
  { arg_demo : bool; arg_plot : bool; arg_advise : bool;
    arg_tdA : option Q; arg_spA : option Q; arg_incA : option Q;
    arg_tdB : option Q; arg_spB : option Q; arg_incB : option Q;
    arg_peak : bool; arg_run_checks : bool }.

(** What the [__main__] block does next. *)
Inductive Action : Type :=
| InteractiveMenu
| PlotMemberships
| GenerateDemoCsv
| RunChecks
| Advise (routeA routeB : Route) (peak_flag : Z)
| SysExit (code : Z).

Definition is_None (v : option Q) : bool :=
  match v with None => true | Some _ => false end.

Section CommandLine.

(** [parse_args(argv)]: the argument parser of the standard library either
    exits the process with a status (after [--help], on an unknown option
    or on a value it refuses) or returns the namespace. *)
Variable parse_args : list string -> Z + Args.

(** The [__main__] block on [sys.argv]. *)
Definition main (argv : list string) : Action :=
  match parse_args (tail argv) with
  | inl status => SysExit status
  | inr args =>
      if Nat.eqb (length argv) 1 then InteractiveMenu
      else if arg_plot args then PlotMemberships
      else if arg_demo args then GenerateDemoCsv
      else if arg_run_checks args then RunChecks
      else if arg_advise args then
        let required := [arg_tdA args; arg_spA args; arg_incA args;
                         arg_tdB args; arg_spB args; arg_incB args] in
        if existsb is_None required then SysExit 2
        else
          match arg_tdA args, arg_spA args, arg_incA args,
                arg_tdB args, arg_spB args, arg_incB args with
          | Some tdA, Some spA, Some incA, Some tdB, Some spB, Some incB =>
              Advise {| density := tdA; speed := spA; incident := incA |}
                     {| density := tdB; speed := spB; incident := incB |}
                     (Z.b2z (arg_peak args))
          | _, _, _, _, _, _ => SysExit 2
          end
      else InteractiveMenu
  end.

End CommandLine.

(** ** The interactive menu *)

(** What one [input()] followed by a conversion gives: end of input
    ([EOFError]), a line that does not convert ([ValueError]), or a value;
    the lines not yet read come with the last two. *)
Inductive Read (A : Type) : Type :=
| ReadEOF
| ReadValueError (rest : list string)
| ReadOk (v : A) (rest : list string).

Arguments ReadEOF {A}.
Arguments ReadValueError {A} rest.
Arguments ReadOk {A} v rest.

(** How [interactive_menu] ends. *)
Inductive MenuOutcome : Type :=
| MenuDemo
| MenuPlot
| MenuChecks
| MenuAdvise (routeA routeB : Route) (peak_flag : Z)
| MenuInvalidInput
| MenuExiting
| MenuEOFError.

Section Menu.

(** [str.strip], [float] and [int] of the language; a conversion that
    raises [ValueError] is [None]. *)
Variable strip : string -> string.
Variable float_of : string -> option Q.
Variable int_of : string -> option Z.

(** [conv(input(prompt))] on the lines still to be read. *)
Definition read_input {A : Type} (conv : string -> option A)
    (stdin : list string) : Read A :=
  match stdin with
  | [] => ReadEOF
  | line :: rest =>
      match conv line with
      | None => ReadValueError rest
      | Some v => ReadOk v rest
      end
  end.

Definition read_then {A B : Type} (r : Read A)
    (k : A -> list string -> Read B) : Read B :=
  match r with
  | ReadEOF => ReadEOF
  | ReadValueError rest => ReadValueError rest
  | ReadOk v rest => k v rest
  end.

(** The seven reads of choice 4, in the order of the prompts. *)
Definition read_query (stdin : list string) : Read (Route * Route * Z) :=
  read_then (read_input float_of stdin) (fun tdA stdin =>
  read_then (read_input float_of stdin) (fun spA stdin =>
  read_then (read_input float_of stdin) (fun incA stdin =>
  read_then (read_input float_of stdin) (fun tdB stdin =>
  read_then (read_input float_of stdin) (fun spB stdin =>
  read_then (read_input float_of stdin) (fun incB stdin =>
  read_then (read_input int_of stdin) (fun peak stdin =>
  ReadOk ({| density := tdA; speed := spA; incident := incA |},
          {| density := tdB; speed := spB; incident := incB |},
          peak) stdin))))))).

(** [interactive_menu()] on the lines of standard input: how it ends and
    the lines it has not read. *)
Definition interactive_menu (stdin : list string)
  : MenuOutcome * list string :=
  match stdin with
  | [] => (MenuEOFError, [])
  | line :: rest =>
      let choice := strip line in
      if String.eqb choice "1" then (MenuDemo, rest)
      else if String.eqb choice "2" then (MenuPlot, rest)
      else if String.eqb choice "3" then (MenuChecks, rest)
      else if String.eqb choice "4" then
        match read_query rest with
        | ReadEOF => (MenuEOFError, [])
        | ReadValueError rest' => (MenuInvalidInput, rest')
        | ReadOk (routeA, routeB, peak) rest' =>
            (MenuAdvise routeA routeB peak, rest')
        end
      else (MenuExiting, rest)
  end.

End Menu.

(** Every atom of an antecedent names a fuzzy set that is defined. *)
Fixpoint terms_defined (a : Antecedent) : Prop :=
  match a with
  | Term var label =>
      exists v sh, antecedents !! var = Some v /\ v !! label = Some sh
  | TermAnd l r => terms_defined l /\ terms_defined r
  | TermOr l r => terms_defined l /\ terms_defined r
  end.

(** ** Notions used by the properties *)

(** The side a recommendation leans to: 1 for A, -1 for B, 0 otherwise. *)
Definition leaning (rec : string) : Z :=
  if String.eqb rec TakeRouteA then 1%Z
  else if String.eqb rec TakeRouteB then (-1)%Z
  else 0%Z.

(** An engine that leaves the given score under ["delta_score"]. *)
Definition scoring_engine (s : Q) : Py unit := fun sim =>
  (inr tt, {| ctrl := ctrl sim; input := input sim;
              output := <["delta_score" := s]> (output sim) |}).

(** An engine that returns without writing anything. *)
Definition idle_engine : Py unit := fun sim => (inr tt, sim).

(** Raw input tuples that agree, the rationals up to equality of
    fractions. *)
Definition raw_equiv (u v : Q * Q * Q * Z) : Prop :=
  let '(ud, us, ui, up) := u in
  let '(vd, vs, vi, vp) := v in
  ud == vd /\ us == vs /\ ui == vi /\ up = vp.

(** One of the three recommendations that name a route choice. *)
Definition route_tag (t : string) : Prop :=
  t = TakeRouteA \/ t = TakeRouteB \/ t = BothComparable.

(** * Properties *)

(** ** Comparisons and clipping *)

Lemma Qlt_bool_iff (x y : Q) : Qlt_bool x y = true <-> x < y.
Proof.
  unfold Qlt_bool. rewrite negb_true_iff.
  split.
  - intros H. apply Qnot_le_lt. intros Hle.
    apply Qle_bool_iff in Hle. congruence.
  - intros H. destruct (Qle_bool y x) eqn:E; [|reflexivity].
    apply Qle_bool_iff in E. exfalso. apply (Qlt_not_le _ _ H E).
Qed.

Lemma Qlt_bool_false (x y : Q) : Qlt_bool x y = false <-> y <= x.
Proof.
  unfold Qlt_bool. rewrite negb_false_iff. apply Qle_bool_iff.
Qed.

Lemma Qle_bool_false (x y : Q) : Qle_bool x y = false <-> y < x.
Proof.
  rewrite <- Qlt_bool_iff. unfold Qlt_bool.
  destruct (Qle_bool x y); simpl; intuition congruence.
Qed.

Lemma Qeq_bool_false (x y : Q) : Qeq_bool x y = false <-> ~ x == y.
Proof.
  split.
  - intros H Heq. apply Qeq_bool_iff in Heq. congruence.
  - intros H. destruct (Qeq_bool x y) eqn:E; [|reflexivity].
    apply Qeq_bool_iff in E. contradiction.
Qed.

Lemma np_clip_bounds (x lo hi : Q) :
  lo <= hi -> lo <= np_clip x lo hi /\ np_clip x lo hi <= hi.
Proof.
  intros Hlh. unfold np_clip. split.
  - apply Q.min_glb; [exact Hlh | apply Q.le_max_r].
  - apply Q.le_min_l.
Qed.

Lemma np_clip_inside (x lo hi : Q) :
  lo <= x -> x <= hi -> np_clip x lo hi == x.
Proof.
  intros H1 H2. unfold np_clip.
  rewrite (Q.max_l x lo) by exact H1.
  apply Q.min_r. exact H2.
Qed.

Lemma np_clip_below (x lo hi : Q) :
  lo <= hi -> x <= lo -> np_clip x lo hi == lo.
Proof.
  intros Hlh H. unfold np_clip.
  rewrite (Q.max_r x lo) by exact H.
  apply Q.min_r. exact Hlh.
Qed.

Lemma np_clip_above (x lo hi : Q) :
  lo <= hi -> hi <= x -> np_clip x lo hi == hi.
Proof.
  intros Hlh H. unfold np_clip.
  apply Q.min_l. apply Qle_trans with x; [exact H | apply Q.le_max_l].
Qed.

(** ** Running [advise] *)

Lemma advise_run (compute : Py unit) (A B : Route) (p : PyVal)
    (sim : ControlSystemSimulation) :
  advise compute A B p sim =
  finish (clipped_inputs A B p)
         (compute (after_stores sim (clipped_inputs A B p))).
Proof.
  unfold advise.
  destruct (clipped_inputs A B p) as [[[dd ds] di] pv].
  unfold mbind, Py_bind, set_input, try_except, get_output, mret, Py_ret,
    after_stores, finish; simpl.
  destruct (compute _) as [[e|[]] sim2]; simpl; [reflexivity|].
  destruct (output sim2 !! "delta_score"); reflexivity.
Qed.

Lemma after_stores_input (sim : ControlSystemSimulation) (dd ds di : Q) (pv : Z) :
  input (after_stores sim (dd, ds, di, pv)) !! "delta_density" = Some dd /\
  input (after_stores sim (dd, ds, di, pv)) !! "delta_speed" = Some ds /\
  input (after_stores sim (dd, ds, di, pv)) !! "delta_incident" = Some di /\
  input (after_stores sim (dd, ds, di, pv)) !! "delta_time_peak"
    = Some (inject_Z pv).
Proof.
  unfold after_stores; simpl.
  repeat split;
    repeat (rewrite lookup_insert_ne by discriminate);
    apply lookup_insert_eq.
Qed.

Lemma advise_raw (compute : Py unit) (A B : Route) (p : PyVal)
    (sim : ControlSystemSimulation) :
  exists r, result_of (advise compute A B p) sim = inr r /\
            raw r = clipped_inputs A B p.
Proof.
  unfold result_of. rewrite advise_run.
  destruct (compute _) as [[e|[]] sim2]; simpl.
  - eexists. split; reflexivity.
  - destruct (output sim2 !! "delta_score"); eexists; split; reflexivity.
Qed.

Lemma advise_state (compute : Py unit) (A B : Route) (p : PyVal)
    (sim : ControlSystemSimulation) :
  state_after (advise compute A B p) sim
  = snd (compute (after_stores sim (clipped_inputs A B p))).
Proof.
  unfold state_after. rewrite advise_run.
  destruct (compute _) as [[e|[]] sim2]; simpl; [reflexivity|].
  destruct (output sim2 !! "delta_score"); reflexivity.
Qed.

Lemma advise_then (compute : Py unit) (A B A' B' : Route) (p p' : PyVal)
    (sim : ControlSystemSimulation) :
  (advise compute A B p ;; advise compute A' B' p') sim
  = advise compute A' B' p' (state_after (advise compute A B p) sim).
Proof.
  unfold state_after, mbind, Py_bind.
  destruct (advise_raw compute A B p sim) as (r & Hr & _).
  unfold result_of in Hr.
  destruct (advise compute A B p sim) as [[e|r0] sim1]; simpl in *;
    [discriminate | reflexivity].
Qed.

Lemma engine_compute_keeps_input (s : ControlSystemSimulation) :
  input (snd (engine_compute s)) = input s.
Proof.
  unfold engine_compute. destruct (infer (ctrl s) (input s)); reflexivity.
Qed.

Lemma engine_compute_keeps_ctrl (s : ControlSystemSimulation) :
  ctrl (snd (engine_compute s)) = ctrl s.
Proof.
  unfold engine_compute. destruct (infer (ctrl s) (input s)); reflexivity.
Qed.

(** ** The decision mapper *)

(** C3: the recommendation is a total function of the crisp score: it is
    [TakeRouteA] exactly for scores above 60, [TakeRouteB] exactly for
    scores below 40 and [BothComparable] exactly for scores from 40 to 60,
    both bounds included. *)
Theorem decide_rec_thresholds (s : Q) :
  (decide_rec s = TakeRouteA <-> 60 < s) /\
  (decide_rec s = TakeRouteB <-> s < 40) /\
  (decide_rec s = BothComparable <-> 40 <= s /\ s <= 60) /\
  decide_rec 40 = BothComparable /\
  decide_rec 60 = BothComparable.
Proof.
  unfold decide_rec.
  destruct (Qlt_bool 60 s) eqn:Ha.
  - apply Qlt_bool_iff in Ha.
    repeat split; try reflexivity; try discriminate; try tauto; intros H.
    + exfalso. apply (Qlt_irrefl 60). eapply Qlt_trans; [exact Ha|].
      eapply Qlt_trans; [exact H|]. reflexivity.
    + exfalso. destruct H as [_ H]. apply (Qlt_not_le _ _ Ha H).
  - apply Qlt_bool_false in Ha.
    destruct (Qlt_bool s 40) eqn:Hb.
    + apply Qlt_bool_iff in Hb.
      repeat split; try reflexivity; try discriminate; try tauto; intros H.
      * exfalso. apply (Qlt_not_le _ _ H Ha).
      * exfalso. destruct H as [H _]. apply (Qlt_not_le _ _ Hb H).
    + apply Qlt_bool_false in Hb.
      repeat split; try reflexivity; try discriminate; try tauto; intros H.
      * exfalso. apply (Qlt_not_le _ _ H Ha).
      * exfalso. apply (Qlt_not_le _ _ H Hb).
Qed.

(** ** Delta computation and clamping *)

(** C4: the deltas are A.density - B.density, A.speed - B.speed,
    B.incident - A.incident and the peak flag as given; the engine runs on
    the shared object holding each of them clamped to its universe:
    [-200,200], [-120,120], [-10,10], and 0 or 1 for the peak flag. *)
Theorem delta_inputs_clamped (A B : Route) (p : PyVal)
    (sim : ControlSystemSimulation) :
  compute_delta_inputs A B p
    = (density A - density B, speed A - speed B, incident B - incident A, p) /\
  exists dd ds di pv,
    clipped_inputs A B p = (dd, ds, di, pv) /\
    dd = np_clip (density A - density B) (-200) 200 /\
    ds = np_clip (speed A - speed B) (-120) 120 /\
    di = np_clip (incident B - incident A) (-10) 10 /\
    (-200 <= dd /\ dd <= 200) /\
    (-120 <= ds /\ ds <= 120) /\
    (-10 <= di /\ di <= 10) /\
    (pv = 0%Z \/ pv = 1%Z) /\
    (-200 <= density A - density B <= 200 -> dd == density A - density B) /\
    (-120 <= speed A - speed B <= 120 -> ds == speed A - speed B) /\
    (-10 <= incident B - incident A <= 10 -> di == incident B - incident A) /\
    (p = PyInt 0 -> pv = 0%Z) /\
    (p = PyInt 1 -> pv = 1%Z) /\
    let staged := after_stores sim (dd, ds, di, pv) in
    input staged !! "delta_density" = Some dd /\
    input staged !! "delta_speed" = Some ds /\
    input staged !! "delta_incident" = Some di /\
    input staged !! "delta_time_peak" = Some (inject_Z pv) /\
    forall compute : Py unit,
      advise compute A B p sim = finish (dd, ds, di, pv) (compute staged).
Proof.
  split; [reflexivity|].
  eexists _, _, _, _. split; [reflexivity|].
  split; [reflexivity|]. split; [reflexivity|]. split; [reflexivity|].
  split; [apply np_clip_bounds; discriminate|].
  split; [apply np_clip_bounds; discriminate|].
  split; [apply np_clip_bounds; discriminate|].
  split; [simpl; destruct (truthy p); auto|].
  split; [intros [H1 H2]; apply np_clip_inside; assumption|].
  split; [intros [H1 H2]; apply np_clip_inside; assumption|].
  split; [intros [H1 H2]; apply np_clip_inside; assumption|].
  split; [intros ->; reflexivity|].
  split; [intros ->; reflexivity|].
  cbv zeta.
  pose proof (after_stores_input sim
    (np_clip (density A - density B) (-200) 200)
    (np_clip (speed A - speed B) (-120) 120)
    (np_clip (incident B - incident A) (-10) 10)
    (if truthy p then 1%Z else 0%Z)) as (H1 & H2 & H3 & H4).
  simpl compute_delta_inputs.
  split; [exact H1|]. split; [exact H2|]. split; [exact H3|].
  split; [exact H4|].
  intros compute. apply advise_run.
Qed.

(** ** The peak flag *)

(** C10: [advise] accepts any peak flag: a truthy one (5, 0.5, True) becomes
    the crisp input 1 and a falsy one 0 before the engine runs, the coerced
    value is the fourth component of [raw], and no flag is rejected. *)
Theorem peak_flag_coerced (compute : Py unit) (A B : Route) (p : PyVal)
    (sim : ControlSystemSimulation) :
  let peak_val := if truthy p then 1%Z else 0%Z in
  (exists r sim', advise compute A B p sim = (inr r, sim') /\
                  snd (raw r) = peak_val) /\
  (exists dd ds di,
      input (after_stores sim (dd, ds, di, peak_val)) !! "delta_time_peak"
        = Some (inject_Z peak_val) /\
      advise compute A B p sim
        = finish (dd, ds, di, peak_val)
                 (compute (after_stores sim (dd, ds, di, peak_val)))) /\
  truthy (PyInt 5) = true /\
  truthy (PyFloat (1 # 2)) = true /\
  truthy (PyBool true) = true /\
  truthy (PyInt (-3)) = true /\
  truthy (PyInt 0) = false /\
  truthy (PyFloat 0) = false /\
  truthy (PyBool false) = false /\
  truthy PyNone = false.
Proof.
  cbv zeta. split; [|split].
  - rewrite advise_run.
    destruct (compute _) as [[e|[]] sim2]; simpl.
    + eexists _, _. split; reflexivity.
    + destruct (output sim2 !! "delta_score");
        eexists _, _; split; reflexivity.
  - eexists _, _, _. split.
    + apply after_stores_input.
    + apply advise_run.
  - repeat split; reflexivity.
Qed.

(** ** Faults of the engine *)

(** C5: [advise] never raises: whatever the engine does on the stored
    inputs, [advise] returns a result record, and when the engine raises an
    exception the record is the sentinel with score 50.0 and recommendation
    [ErrorNeutral]. *)
Theorem advise_never_raises (compute : Py unit) (A B : Route) (p : PyVal)
    (sim : ControlSystemSimulation) :
  (exists r sim', advise compute A B p sim = (inr r, sim')) /\
  (forall e sim2,
      compute (after_stores sim (clipped_inputs A B p)) = (inl e, sim2) ->
      advise compute A B p sim
        = (inr {| score := 50; recommendation := ErrorNeutral;
                  raw := clipped_inputs A B p |}, sim2)).
Proof.
  rewrite advise_run. split.
  - destruct (compute _) as [[e|[]] sim2]; simpl.
    + eexists _, _. reflexivity.
    + destruct (output sim2 !! "delta_score"); eexists _, _; reflexivity.
  - intros e sim2 ->. reflexivity.
Qed.

(** ** The shared simulation object *)

(** C9, as stated, fails: after a call the module-level object [routing]
    holds the call's delta inputs, which it did not hold before. *)
Lemma advise_writes_shared_object :
  input routing !! "delta_density" = None /\
  input (state_after (advise engine_compute routeA1 routeB1 (PyInt 1)) routing)
    !! "delta_density" = Some (-100) /\
  state_after (advise engine_compute routeA1 routeB1 (PyInt 1)) routing
    <> routing.
Proof.
  split; [reflexivity|]. split; [vm_compute; reflexivity|].
  intros H.
  apply (f_equal (fun s => input s !! "delta_density")) in H.
  vm_compute in H. discriminate H.
Qed.

(** C9, amended: a call uses no buffer of its own.  It stores its four
    clamped inputs in the [input] dictionary of the shared simulation
    object, touching no other key, and runs the engine on that object.
    With an engine that writes neither the rule base nor the inputs, the
    object the call leaves has the rule base it had, holds these four
    inputs and is the object the next call starts on. *)
Theorem advise_stores_in_shared_object (compute : Py unit) (A B : Route)
    (p : PyVal) (sim : ControlSystemSimulation) :
  (forall s, ctrl (snd (compute s)) = ctrl s /\
             input (snd (compute s)) = input s) ->
  let v := clipped_inputs A B p in
  let left := state_after (advise compute A B p) sim in
  left = snd (compute (after_stores sim v)) /\
  ctrl left = ctrl sim /\
  input left !! "delta_density" = Some (fst (fst (fst v))) /\
  input left !! "delta_speed" = Some (snd (fst (fst v))) /\
  input left !! "delta_incident" = Some (snd (fst v)) /\
  input left !! "delta_time_peak" = Some (inject_Z (snd v)) /\
  (forall k : string,
      k <> "delta_density" -> k <> "delta_speed" ->
      k <> "delta_incident" -> k <> "delta_time_peak" ->
      input left !! k = input sim !! k) /\
  (forall (A' B' : Route) (p' : PyVal),
      (advise compute A B p ;; advise compute A' B' p') sim
      = advise compute A' B' p' left).
Proof.
  intros Hframe. cbv zeta.
  rewrite advise_state.
  destruct (Hframe (after_stores sim (clipped_inputs A B p))) as [Hc Hi].
  rewrite Hc, Hi.
  destruct (clipped_inputs A B p) as [[[dd ds] di] pv] eqn:Hv.
  pose proof (after_stores_input sim dd ds di pv) as (H1 & H2 & H3 & H4).
  split; [reflexivity|]. split; [reflexivity|].
  split; [exact H1|]. split; [exact H2|]. split; [exact H3|].
  split; [exact H4|]. split.
  - intros k K1 K2 K3 K4. unfold after_stores; simpl.
    rewrite !lookup_insert_ne by congruence. reflexivity.
  - intros A' B' p'. rewrite advise_then, advise_state, Hv. reflexivity.
Qed.

Lemma advise_stores_in_shared_object_witness :
  let v := clipped_inputs routeA1 routeB1 (PyInt 1) in
  let left :=
    state_after (advise engine_compute routeA1 routeB1 (PyInt 1)) routing in
  left = snd (engine_compute (after_stores routing v)) /\
  ctrl left = ctrl routing /\
  input left !! "delta_density" = Some (fst (fst (fst v))) /\
  input left !! "delta_speed" = Some (snd (fst (fst v))) /\
  input left !! "delta_incident" = Some (snd (fst v)) /\
  input left !! "delta_time_peak" = Some (inject_Z (snd v)) /\
  (forall k : string,
      k <> "delta_density" -> k <> "delta_speed" ->
      k <> "delta_incident" -> k <> "delta_time_peak" ->
      input left !! k = input routing !! k) /\
  (forall (A' B' : Route) (p' : PyVal),
      (advise engine_compute routeA1 routeB1 (PyInt 1) ;;
       advise engine_compute A' B' p') routing
      = advise engine_compute A' B' p' left).
Proof.
  apply (advise_stores_in_shared_object engine_compute routeA1 routeB1
           (PyInt 1) routing).
  intros s. split;
    [apply engine_compute_keeps_ctrl | apply engine_compute_keeps_input].
Defined.

(** ** Membership degrees *)

Lemma checked_div_ramp (n d : Q) :
  0 <= n -> n <= d -> 0 < d ->
  checked_div n d = Some (n / d) /\ 0 <= n / d /\ n / d <= 1.
Proof.
  intros Hn Hnd Hd. unfold checked_div.
  assert (E : Qeq_bool d 0 = false).
  { apply Qeq_bool_false. intros H. rewrite H in Hd.
    exact (Qlt_irrefl 0 Hd). }
  rewrite E. split; [reflexivity|]. split.
  - apply Qle_shift_div_l; [exact Hd|]. lra.
  - apply Qle_shift_div_r; [exact Hd|]. lra.
Qed.

Ltac bool_facts :=
  repeat match goal with
    | H : _ || _ = true |- _ => apply orb_true_iff in H
    | H : _ || _ = false |- _ => apply orb_false_iff in H; destruct H
    | H : _ && _ = true |- _ => apply andb_true_iff in H; destruct H
    | H : _ && _ = false |- _ => apply andb_false_iff in H
    | H : Qeq_bool _ _ = true |- _ => apply Qeq_bool_iff in H
    | H : Qeq_bool _ _ = false |- _ => apply Qeq_bool_false in H
    | H : Qle_bool _ _ = true |- _ => apply Qle_bool_iff in H
    | H : Qle_bool _ _ = false |- _ => apply Qle_bool_false in H
    | H : Qlt_bool _ _ = true |- _ => apply Qlt_bool_iff in H
    | H : Qlt_bool _ _ = false |- _ => apply Qlt_bool_false in H
    end.

(** C7: for a shape with ordered parameters the membership degree exists at
    every point (no division by zero, also when a=b or c=d), lies in [0,1],
    is exactly 1 on the plateau and exactly 0 outside the support; the
    singleton a=b=c is 1 at x=a and 0 elsewhere. *)
Theorem membership_sound (s : Shape) (x : Q) :
  valid_shape s ->
  (exists d, membership s x = Some d /\ 0 <= d /\ d <= 1 /\
             (on_plateau s x -> d = 1) /\
             (outside_support s x -> d = 0)) /\
  (forall a, membership (Triangular a a a) x
             = Some (if Qeq_bool x a then 1 else 0)).
Proof.
  intros Hv. split.
  - destruct s as [a b c | a b c d]; simpl in *.
    + destruct Hv as [Hab Hbc].
      destruct (Qeq_bool x b) eqn:E1.
      { bool_facts. exists 1. repeat split; try discriminate.
        intros [Hx|Hx]; exfalso; lra. }
      destruct (Qle_bool x a || Qle_bool c x) eqn:E2.
      { bool_facts. exists 0. repeat split; try discriminate.
        intros Hp. contradiction. }
      destruct (Qlt_bool x b) eqn:E3; bool_facts.
      * destruct (checked_div_ramp (x - a) (b - a)) as (Hd & Hr0 & Hr1);
          try lra.
        eexists. split; [exact Hd|]. repeat split; try assumption.
        -- intros Hp. contradiction.
        -- intros [Hx|Hx]; exfalso; lra.
      * assert (Hbx : b < x).
        { apply Qle_lteq in E3. destruct E3 as [E3|E3]; [exact E3|].
          exfalso. apply E1. symmetry. exact E3. }
        destruct (checked_div_ramp (c - x) (c - b)) as (Hd & Hr0 & Hr1);
          try lra.
        eexists. split; [exact Hd|]. repeat split; try assumption.
        -- intros Hx. contradiction.
        -- intros [Hx|Hx]; exfalso; lra.
    + destruct Hv as (Hab & Hbc & Hcd).
      destruct (Qlt_bool x a || Qlt_bool d x) eqn:E1.
      { bool_facts. exists 0. repeat split; try discriminate.
        intros [Hx1 Hx2]. exfalso. destruct E1 as [E1|E1]; bool_facts; lra. }
      destruct (Qle_bool b x && Qle_bool x c) eqn:E2.
      { bool_facts. exists 1. repeat split; try discriminate.
        intros [Hx|Hx]; exfalso; lra. }
      destruct (Qlt_bool x b) eqn:E3; bool_facts.
      * destruct (checked_div_ramp (x - a) (b - a)) as (Hd & Hr0 & Hr1);
          try lra.
        eexists. split; [exact Hd|]. repeat split; try assumption.
        -- intros [Hx1 Hx2]. exfalso. lra.
        -- intros [Hx|Hx]; exfalso; lra.
      * assert (Hcx : c < x).
        { destruct E2 as [E2|E2]; bool_facts; [exfalso; lra | exact E2]. }
        destruct (checked_div_ramp (d - x) (d - c)) as (Hd & Hr0 & Hr1);
          try lra.
        eexists. split; [exact Hd|]. repeat split; try assumption.
        -- intros [Hx1 Hx2]. exfalso. lra.
        -- intros [Hx|Hx]; exfalso; lra.
  - intros a. simpl.
    destruct (Qeq_bool x a) eqn:E1; [reflexivity|].
    destruct (Qle_bool x a || Qle_bool a x) eqn:E2; [reflexivity|].
    exfalso. bool_facts. lra.
Qed.

Lemma membership_sound_witness :
  (exists d, membership (Triangular 1 (5 # 2) 4) 2 = Some d /\
             0 <= d /\ d <= 1 /\
             (on_plateau (Triangular 1 (5 # 2) 4) 2 -> d = 1) /\
             (outside_support (Triangular 1 (5 # 2) 4) 2 -> d = 0)) /\
  (forall a, membership (Triangular a a a) 2
             = Some (if Qeq_bool 2 a then 1 else 0)).
Proof.
  apply (membership_sound (Triangular 1 (5 # 2) 4) 2).
  split; discriminate.
Defined.

(** ** The range of the score *)

Lemma Qsum_nonneg (ds : list Q) : Forall (Qle 0) ds -> 0 <= Qsum ds.
Proof.
  induction 1 as [|d ds Hd _ IH]; simpl; [discriminate | lra].
Qed.

Lemma weighted_sum_bounds (xs ds : list Q) :
  Forall (fun x => 0 <= x /\ x <= 100) xs ->
  Forall (Qle 0) ds ->
  0 <= Qsum (zip_with Qmult xs ds) /\
  Qsum (zip_with Qmult xs ds) <= 100 * Qsum ds.
Proof.
  intros Hxs. revert ds.
  induction Hxs as [|x xs [Hx0 Hx1] _ IH]; intros ds Hds.
  - simpl. pose proof (Qsum_nonneg ds Hds). lra.
  - destruct Hds as [|d ds Hd Hds]; simpl.
    + lra.
    + destruct (IH ds Hds) as [IH0 IH1].
      pose proof (Qmult_le_0_compat x d Hx0 Hd) as P0.
      pose proof (Qmult_le_compat_r x 100 d Hx1 Hd) as P1.
      lra.
Qed.

Lemma delta_score_universe_bounds :
  Forall (fun x => 0 <= x /\ x <= 100) delta_score_universe.
Proof.
  apply List.Forall_forall. intros x Hx.
  apply in_map_iff in Hx. destruct Hx as (n & <- & Hn).
  apply in_seq in Hn.
  change 0 with (inject_Z 0). change 100 with (inject_Z 100).
  rewrite <- !Zle_Qle. lia.
Qed.

Lemma centroid_bounds (xs ds : list Q) (q : Q) :
  Forall (fun x => 0 <= x /\ x <= 100) xs ->
  Forall (Qle 0) ds ->
  centroid xs ds = Some q ->
  0 <= q /\ q <= 100.
Proof.
  intros Hxs Hds. unfold centroid.
  destruct (Qeq_bool (Qsum ds) 0) eqn:E; [discriminate|].
  intros [= <-].
  apply Qeq_bool_false in E.
  pose proof (Qsum_nonneg ds Hds) as Hs.
  destruct (weighted_sum_bounds xs ds Hxs Hds) as [W0 W1].
  assert (Hpos : 0 < Qsum ds).
  { apply Qle_lteq in Hs. destruct Hs as [Hs|Hs]; [exact Hs|].
    exfalso. apply E. symmetry. exact Hs. }
  split.
  - apply Qle_shift_div_l; [exact Hpos | lra].
  - apply Qle_shift_div_r; [exact Hpos | lra].
Qed.

Lemma aggregate_nonneg (cs : list (Q * Shape)) (x d : Q) :
  aggregate cs x = Some d -> 0 <= d.
Proof.
  revert d. induction cs as [|c cs IH]; simpl; intros d.
  - intros [= <-]. discriminate.
  - destruct (clip_consequent c x) as [e|]; simpl; [|discriminate].
    destruct (aggregate cs x) as [acc|]; simpl; [|discriminate].
    intros [= <-].
    apply Qle_trans with acc; [apply IH; reflexivity | apply Q.le_max_r].
Qed.

Lemma mapM_aggregate_nonneg (cs : list (Q * Shape)) (xs ds : list Q) :
  mapM (aggregate cs) xs = Some ds -> Forall (Qle 0) ds.
Proof.
  intros H. apply mapM_Some_1 in H.
  induction H as [|x d xs ds Hd _ IH]; constructor.
  - exact (aggregate_nonneg cs x d Hd).
  - exact IH.
Qed.

Lemma py_round2_bounds (q : Q) :
  0 <= q -> q <= 100 -> 0 <= py_round2 q /\ py_round2 q <= 100.
Proof.
  intros H0 H1. unfold py_round2.
  set (t := q * 100).
  assert (Ht0 : 0 <= t) by (unfold t; lra).
  assert (Ht1 : t <= 10000) by (unfold t; lra).
  pose proof (Qfloor_le t) as Hfl.
  assert (Hf0 : (0 <= Qfloor t)%Z).
  { change 0%Z with (Qfloor 0). apply Qfloor_resp_le. exact Ht0. }
  assert (Hf1 : (Qfloor t <= 10000)%Z).
  { change 10000%Z with (Qfloor 10000). apply Qfloor_resp_le. exact Ht1. }
  set (f := Qfloor t) in *.
  assert (Hup : 1 # 2 <= t - inject_Z f -> (f + 1 <= 10000)%Z).
  { intros Hr.
    assert (Hlt : inject_Z f < inject_Z 10000).
    { change (inject_Z 10000) with 10000. lra. }
    rewrite <- Zlt_Qlt in Hlt. lia. }
  assert (Hn : forall n : Z, (0 <= n <= 10000)%Z ->
                0 <= inject_Z n / 100 /\ inject_Z n / 100 <= 100).
  { intros n [Hn0 Hn1].
    rewrite Zle_Qle in Hn0, Hn1.
    change (inject_Z 0) with 0 in Hn0.
    change (inject_Z 10000) with 10000 in Hn1.
    split.
    - apply Qle_shift_div_l; [reflexivity | lra].
    - apply Qle_shift_div_r; [reflexivity | lra]. }
  apply Hn.
  destruct (Qlt_bool (t - inject_Z f) (1 # 2)) eqn:E1; [lia|].
  apply Qlt_bool_false in E1. specialize (Hup E1).
  destruct (Qlt_bool (1 # 2) (t - inject_Z f)); [lia|].
  destruct (Z.even f); lia.
Qed.

Lemma infer_bounds (rs : list Rule) (inp : gmap string Q) (q : Q) :
  infer rs inp = Some (Some q) -> 0 <= q /\ q <= 100.
Proof.
  unfold infer, aggregated_output.
  destruct (mapM (activate inp) rs) as [cs|]; [|discriminate].
  change (Some cs ≫= (fun cs0 => mapM (aggregate cs0) delta_score_universe))
    with (mapM (aggregate cs) delta_score_universe).
  destruct (mapM (aggregate cs) delta_score_universe) as [ds|] eqn:E;
    [|discriminate].
  intros Hc. injection Hc as Hc.
  eapply centroid_bounds; [apply delta_score_universe_bounds | | exact Hc].
  eapply mapM_aggregate_nonneg. exact E.
Qed.

(** What [advise] returns with the modelled engine, by the outcome of the
    inference on the stored inputs. *)
Lemma advise_engine_run (A B : Route) (p : PyVal)
    (sim : ControlSystemSimulation) :
  let v := clipped_inputs A B p in
  result_of (advise engine_compute A B p) sim =
  inr match infer (ctrl sim) (input (after_stores sim v)) with
      | None => {| score := 50; recommendation := ErrorNeutral; raw := v |}
      | Some None =>
          {| score := 50; recommendation := AmbiguousNoRules; raw := v |}
      | Some (Some s) =>
          {| score := py_round2 s; recommendation := decide_rec s; raw := v |}
      end.
Proof.
  cbv zeta. unfold result_of. rewrite advise_run. unfold engine_compute.
  replace (ctrl (after_stores sim (clipped_inputs A B p))) with (ctrl sim)
    by (destruct (clipped_inputs A B p) as [[[? ?] ?] ?]; reflexivity).
  destruct (infer _ _) as [[s|]|]; simpl.
  - rewrite lookup_singleton_eq. reflexivity.
  - rewrite lookup_empty. reflexivity.
  - reflexivity.
Qed.

(** C6: on every path (defuzzified score, no-match sentinel, error
    sentinel) the score of the result lies in [0,100]. *)
Theorem advise_score_in_range (A B : Route) (p : PyVal)
    (sim : ControlSystemSimulation) :
  exists r, result_of (advise engine_compute A B p) sim = inr r /\
            0 <= score r /\ score r <= 100.
Proof.
  rewrite advise_engine_run.
  destruct (infer _ _) as [[s|]|] eqn:E; eexists; (split; [reflexivity|]);
    simpl; try (split; discriminate).
  apply infer_bounds in E. destruct E as [E0 E1].
  apply py_round2_bounds; assumption.
Qed.

(** ** No rule fires *)

(** C2 fails on the program: to tell that no rule fired, [advise] looks for
    ["delta_score"] in the output dictionary of the shared simulation
    object, which no call clears.  When the engine returns without writing
    a score, a call on an object holding no score returns the sentinel
    with score 50.0 and "Ambiguous (No matching rules)"; but on an object
    where an earlier call left a score, it returns that earlier score with
    a route recommendation, never the sentinel. *)
Theorem no_match_returns_earlier_score (compute : Py unit) (A B : Route)
    (p : PyVal) (sim : ControlSystemSimulation) :
  compute (after_stores sim (clipped_inputs A B p))
    = (inr tt, after_stores sim (clipped_inputs A B p)) ->
  (output sim !! "delta_score" = None ->
     result_of (advise compute A B p) sim
     = inr {| score := 50; recommendation := AmbiguousNoRules;
              raw := clipped_inputs A B p |}) /\
  (forall s : Q,
     output sim !! "delta_score" = Some s ->
     result_of (advise compute A B p) sim
     = inr {| score := py_round2 s; recommendation := decide_rec s;
              raw := clipped_inputs A B p |} /\
     decide_rec s <> AmbiguousNoRules).
Proof.
  intros Hc. unfold result_of. rewrite advise_run, Hc.
  assert (Ho : output (after_stores sim (clipped_inputs A B p)) = output sim).
  { destruct (clipped_inputs A B p) as [[[? ?] ?] ?]. reflexivity. }
  unfold finish. rewrite Ho. split.
  - intros ->. reflexivity.
  - intros s ->. split; [reflexivity|].
    unfold decide_rec.
    destruct (Qlt_bool 60 s); [discriminate|].
    destruct (Qlt_bool s 40); discriminate.
Qed.

Lemma no_match_returns_earlier_score_witness :
  (output (state_after (advise (scoring_engine 55) routeA1 routeB1 (PyInt 1))
             routing) !! "delta_score" = None ->
     result_of
       (advise idle_engine
          {| density := 50; speed := 56; incident := 0 |}
          {| density := 50; speed := 50; incident := 0 |} (PyInt 0))
       (state_after (advise (scoring_engine 55) routeA1 routeB1 (PyInt 1))
          routing)
     = inr {| score := 50; recommendation := AmbiguousNoRules;
              raw := clipped_inputs
                       {| density := 50; speed := 56; incident := 0 |}
                       {| density := 50; speed := 50; incident := 0 |}
                       (PyInt 0) |}) /\
  (forall s : Q,
     output (state_after (advise (scoring_engine 55) routeA1 routeB1
                            (PyInt 1)) routing) !! "delta_score" = Some s ->
     result_of
       (advise idle_engine
          {| density := 50; speed := 56; incident := 0 |}
          {| density := 50; speed := 50; incident := 0 |} (PyInt 0))
       (state_after (advise (scoring_engine 55) routeA1 routeB1 (PyInt 1))
          routing)
     = inr {| score := py_round2 s; recommendation := decide_rec s;
              raw := clipped_inputs
                       {| density := 50; speed := 56; incident := 0 |}
                       {| density := 50; speed := 50; incident := 0 |}
                       (PyInt 0) |} /\
     decide_rec s <> AmbiguousNoRules).
Proof.
  apply (no_match_returns_earlier_score idle_engine
           {| density := 50; speed := 56; incident := 0 |}
           {| density := 50; speed := 50; incident := 0 |} (PyInt 0)
           (state_after (advise (scoring_engine 55) routeA1 routeB1 (PyInt 1))
              routing)).
  reflexivity.
Defined.

(** The earlier score comes back: after a call that scored 55, a call on
    which the engine writes nothing is answered with 55 and "Both routes
    comparable". *)
Lemma earlier_score_comes_back :
  output (state_after (advise (scoring_engine 55) routeA1 routeB1 (PyInt 1))
            routing) !! "delta_score" = Some 55 /\
  exists r,
    result_of
      (advise (scoring_engine 55) routeA1 routeB1 (PyInt 1) ;;
       advise idle_engine
         {| density := 50; speed := 56; incident := 0 |}
         {| density := 50; speed := 50; incident := 0 |} (PyInt 0)) routing
    = inr r /\
    score r == 55 /\ recommendation r = BothComparable.
Proof.
  split; [vm_compute; reflexivity|].
  eexists. split; [vm_compute; reflexivity|].
  split; vm_compute; reflexivity.
Qed.

(** ** The documented clear-winner scenario *)

(** C1 fails on the program: for A = (20, 80, 0), B = (120, 30, 2) at peak
    time the density delta is -100, which fires "B much better" at full
    strength against the speed rule for A; the score is 54.31 and the
    recommendation [BothComparable].  With the routes exchanged the score
    is 48.46 and the recommendation is again [BothComparable]. *)
Theorem clear_winner_is_comparable :
  result_of (advise engine_compute routeA1 routeB1 (PyInt 1)) routing
    = inr {| score := 5431 # 100; recommendation := BothComparable;
             raw := (-100, 50, 2, 1%Z) |} /\
  result_of (advise engine_compute routeB1 routeA1 (PyInt 1)) routing
    = inr {| score := 4846 # 100; recommendation := BothComparable;
             raw := (100, -50, -2, 1%Z) |} /\
  BothComparable <> TakeRouteA /\ BothComparable <> TakeRouteB.
Proof.
  split; [vm_compute; reflexivity|].
  split; [vm_compute; reflexivity|].
  split; discriminate.
Qed.

(** With the density delta taken as B.density - A.density, as the comment
    "positive value means Route A is better" reads, the same scenario is
    scored above 60. *)
Lemma positive_density_delta_prefers_A :
  exists s,
    infer rules (<["delta_time_peak" := 1]> (<["delta_incident" := 2]>
                (<["delta_speed" := 50]> (<["delta_density" := 100]> ∅))))
      = Some (Some s) /\
    decide_rec s = TakeRouteA.
Proof.
  eexists. split; [vm_compute; reflexivity|]. vm_compute. reflexivity.
Qed.

(** ** Order of the rules *)

Section MapM_Permutation.

Context {X Y : Type} (f : X -> option Y).

Lemma mapM_Permutation (l l' : list X) :
  Permutation l l' ->
  option_Forall2 (@Permutation Y) (mapM f l) (mapM f l').
Proof.
  induction 1 as [|x l l' _ IH|x y l|l l' l'' _ IH1 _ IH2].
  - simpl. constructor. constructor.
  - simpl. destruct (f x) as [u|]; simpl; [|constructor].
    destruct IH as [k k' Hk|]; simpl; constructor.
    constructor. exact Hk.
  - simpl. destruct (f x) as [u|], (f y) as [w|]; simpl;
      try constructor;
      destruct (mapM f l) as [k|]; simpl; constructor.
    apply perm_swap.
  - destruct IH1 as [k k' Hk|].
    + inversion IH2 as [k1 k'' Hk' E1 E2|]; subst.
      constructor. eapply perm_trans; eassumption.
    + exact IH2.
Qed.

End MapM_Permutation.

Lemma option_Qeq_refl (o : option Q) : option_Forall2 Qeq o o.
Proof. destruct o; constructor. reflexivity. Qed.

Lemma option_Qeq_trans (a b c : option Q) :
  option_Forall2 Qeq a b -> option_Forall2 Qeq b c -> option_Forall2 Qeq a c.
Proof.
  intros [x y Hxy|] Hbc; inversion Hbc; subst; constructor.
  eapply Qeq_trans; eassumption.
Qed.

Lemma Qmax_swap (a b c : Q) : Qmax a (Qmax b c) == Qmax b (Qmax a c).
Proof.
  rewrite !Q.max_assoc. rewrite (Q.max_comm a b). reflexivity.
Qed.

Lemma aggregate_Permutation (cs cs' : list (Q * Shape)) (x : Q) :
  Permutation cs cs' ->
  option_Forall2 Qeq (aggregate cs x) (aggregate cs' x).
Proof.
  induction 1 as [|c l l' _ IH|c1 c2 l|l l' l'' _ IH1 _ IH2].
  - apply option_Qeq_refl.
  - simpl. destruct (clip_consequent c x) as [d|]; simpl; [|constructor].
    destruct IH as [a a' Ha|]; simpl; constructor.
    rewrite Ha. reflexivity.
  - simpl.
    destruct (clip_consequent c1 x) as [d1|],
             (clip_consequent c2 x) as [d2|]; simpl;
      try constructor;
      destruct (aggregate l x) as [a|]; simpl; constructor.
    apply Qmax_swap.
  - eapply option_Qeq_trans; eassumption.
Qed.

Lemma mapM_pointwise (f g : Q -> option Q) (xs : list Q) :
  (forall x, option_Forall2 Qeq (f x) (g x)) ->
  option_Forall2 (Forall2 Qeq) (mapM f xs) (mapM g xs).
Proof.
  intros Hfg. induction xs as [|x xs IH]; simpl.
  - constructor. constructor.
  - destruct (Hfg x) as [u w Huw|]; simpl; [|constructor].
    destruct IH as [k k' Hk|]; simpl; constructor.
    constructor; assumption.
Qed.

Lemma Qsum_Forall2 (ds ds' : list Q) :
  Forall2 Qeq ds ds' -> Qsum ds == Qsum ds'.
Proof.
  induction 1 as [|d d' ds ds' Hd _ IH]; simpl; [reflexivity|].
  rewrite Hd, IH. reflexivity.
Qed.

Lemma weighted_Forall2 (xs ds ds' : list Q) :
  Forall2 Qeq ds ds' ->
  Qsum (zip_with Qmult xs ds) == Qsum (zip_with Qmult xs ds').
Proof.
  intros H. revert xs.
  induction H as [|d d' ds ds' Hd _ IH]; intros [|x xs]; simpl;
    try reflexivity.
  rewrite Hd, (IH xs). reflexivity.
Qed.

Lemma centroid_Forall2 (xs ds ds' : list Q) :
  Forall2 Qeq ds ds' ->
  option_Forall2 Qeq (centroid xs ds) (centroid xs ds').
Proof.
  intros H. unfold centroid.
  pose proof (Qsum_Forall2 ds ds' H) as Hs.
  pose proof (weighted_Forall2 xs ds ds' H) as Hw.
  assert (E : Qeq_bool (Qsum ds) 0 = Qeq_bool (Qsum ds') 0).
  { rewrite Hs. reflexivity. }
  rewrite <- E.
  destruct (Qeq_bool (Qsum ds) 0); constructor.
  rewrite Hs, Hw. reflexivity.
Qed.

Lemma infer_Permutation (rs rs' : list Rule) (inp : gmap string Q) :
  Permutation rs rs' -> same_score (infer rs inp) (infer rs' inp).
Proof.
  intros HP. unfold same_score, infer, aggregated_output.
  destruct (mapM_Permutation (activate inp) rs rs' HP) as [cs cs' Hcs|];
    [|constructor].
  change (Some cs ≫= (fun c => mapM (aggregate c) delta_score_universe))
    with (mapM (aggregate cs) delta_score_universe).
  change (Some cs' ≫= (fun c => mapM (aggregate c) delta_score_universe))
    with (mapM (aggregate cs') delta_score_universe).
  destruct (mapM_pointwise (aggregate cs) (aggregate cs')
              delta_score_universe) as [ds ds' Hds|].
  - intros x. apply aggregate_Permutation. exact Hcs.
  - simpl. constructor. apply centroid_Forall2. exact Hds.
  - constructor.
Qed.

Lemma py_round2_comp (s s' : Q) : s == s' -> py_round2 s = py_round2 s'.
Proof.
  intros H. unfold py_round2.
  assert (Ef : Qfloor (s * 100) = Qfloor (s' * 100)).
  { apply Qfloor_comp. rewrite H. reflexivity. }
  rewrite <- Ef. generalize (Qfloor (s * 100)). intros f.
  assert (E1 : Qlt_bool (s * 100 - inject_Z f) (1 # 2)
             = Qlt_bool (s' * 100 - inject_Z f) (1 # 2)).
  { unfold Qlt_bool. rewrite H. reflexivity. }
  assert (E2 : Qlt_bool (1 # 2) (s * 100 - inject_Z f)
             = Qlt_bool (1 # 2) (s' * 100 - inject_Z f)).
  { unfold Qlt_bool. rewrite H. reflexivity. }
  rewrite E1, E2. reflexivity.
Qed.

Lemma decide_rec_comp (s s' : Q) : s == s' -> decide_rec s = decide_rec s'.
Proof.
  intros H. unfold decide_rec.
  assert (E1 : Qlt_bool 60 s = Qlt_bool 60 s').
  { unfold Qlt_bool. rewrite H. reflexivity. }
  assert (E2 : Qlt_bool s 40 = Qlt_bool s' 40).
  { unfold Qlt_bool. rewrite H. reflexivity. }
  rewrite E1, E2. reflexivity.
Qed.

(** C8: the score does not depend on the order of the rules: on every
    input the inference over any permutation of the fixed rule list gives
    the same outcome as over the list itself, and [advise] on a simulation
    object built from the permuted list returns the same result. *)
Theorem rule_order_irrelevant (rs' : list Rule) :
  Permutation rules rs' ->
  (forall inp : gmap string Q, same_score (infer rs' inp) (infer rules inp)) /\
  (forall (A B : Route) (p : PyVal) (i o : gmap string Q),
      result_of (advise engine_compute A B p)
                {| ctrl := rs'; input := i; output := o |}
      = result_of (advise engine_compute A B p)
                  {| ctrl := rules; input := i; output := o |}).
Proof.
  intros HP.
  assert (Hinf : forall inp, same_score (infer rs' inp) (infer rules inp)).
  { intros inp. apply infer_Permutation. symmetry. exact HP. }
  split; [exact Hinf|].
  intros A B p i o. rewrite !advise_engine_run. cbv zeta.
  set (v := clipped_inputs A B p).
  replace (input (after_stores {| ctrl := rs'; input := i; output := o |} v))
    with (input (after_stores {| ctrl := rules; input := i; output := o |} v))
    by (destruct v as [[[? ?] ?] ?]; reflexivity).
  simpl ctrl.
  destruct (Hinf (input (after_stores
                    {| ctrl := rules; input := i; output := o |} v)))
    as [a b Hab|]; [|reflexivity].
  destruct Hab as [s s' Hs|]; [|reflexivity].
  rewrite (py_round2_comp s s' Hs), (decide_rec_comp s s' Hs). reflexivity.
Qed.

Lemma rule_order_irrelevant_witness :
  (forall inp : gmap string Q,
      same_score (infer (rev rules) inp) (infer rules inp)) /\
  (forall (A B : Route) (p : PyVal) (i o : gmap string Q),
      result_of (advise engine_compute A B p)
                {| ctrl := rev rules; input := i; output := o |}
      = result_of (advise engine_compute A B p)
                  {| ctrl := rules; input := i; output := o |}).
Proof.
  apply (rule_order_irrelevant (rev rules)).
  apply Permutation_rev.
Defined.

(** * Further properties of the program *)

(** ** The raw inputs *)

Lemma np_clip_opp (x h : Q) :
  0 <= h -> np_clip (- x) (- h) h == - np_clip x (- h) h.
Proof.
  intros Hh. unfold np_clip.
  destruct (Q.max_spec (- x) (- h)) as [[H1 E1]|[H1 E1]];
    destruct (Q.max_spec x (- h)) as [[H2 E2]|[H2 E2]];
    rewrite E1, E2;
    destruct (Q.min_spec h (- h)) as [[H3 E3]|[H3 E3]];
    destruct (Q.min_spec h x) as [[H4 E4]|[H4 E4]];
    destruct (Q.min_spec h (- x)) as [[H5 E5]|[H5 E5]];
    rewrite ?E3, ?E4, ?E5; lra.
Qed.

Lemma np_clip_comp (x y lo hi : Q) :
  x == y -> np_clip x lo hi == np_clip y lo hi.
Proof.
  intros H. unfold np_clip. rewrite H. reflexivity.
Qed.

(** X1: exchanging the two routes negates the three raw deltas that
    [advise] reports and hands to the engine, and keeps the peak value. *)
Theorem swapped_routes_negate_raw (compute : Py unit) (A B : Route)
    (p : PyVal) (sim sim' : ControlSystemSimulation) :
  exists r r',
    result_of (advise compute A B p) sim = inr r /\
    result_of (advise compute B A p) sim' = inr r' /\
    fst (fst (fst (raw r'))) == - fst (fst (fst (raw r))) /\
    snd (fst (fst (raw r'))) == - snd (fst (fst (raw r))) /\
    snd (fst (raw r')) == - snd (fst (raw r)) /\
    snd (raw r') = snd (raw r).
Proof.
  destruct (advise_raw compute A B p sim) as (r & Hr & Er).
  destruct (advise_raw compute B A p sim') as (r' & Hr' & Er').
  exists r, r'. split; [exact Hr|]. split; [exact Hr'|].
  rewrite Er, Er'. unfold clipped_inputs, compute_delta_inputs. simpl.
  split; [|split; [|split; [|reflexivity]]].
  - rewrite <- (np_clip_opp (density A - density B) 200) by discriminate.
    apply np_clip_comp. ring.
  - rewrite <- (np_clip_opp (speed A - speed B) 120) by discriminate.
    apply np_clip_comp. ring.
  - rewrite <- (np_clip_opp (incident B - incident A) 10) by discriminate.
    apply np_clip_comp. ring.
Qed.

(** X2: for routes with integer measurements only differences matter:
    adding one integer to the density of both routes, one to both speeds
    and one to both incident severities leaves the raw inputs of [advise]
    unchanged. *)
Theorem common_shift_keeps_raw (compute : Py unit)
    (dA sA iA dB sB iB kd ks ki : Z) (p : PyVal)
    (sim sim' : ControlSystemSimulation) :
  exists r r',
    result_of (advise compute (int_route dA sA iA) (int_route dB sB iB) p)
              sim = inr r /\
    result_of (advise compute
                 (int_route (dA + kd) (sA + ks) (iA + ki))
                 (int_route (dB + kd) (sB + ks) (iB + ki)) p)
              sim' = inr r' /\
    raw_equiv (raw r') (raw r).
Proof.
  destruct (advise_raw compute (int_route dA sA iA) (int_route dB sB iB)
              p sim) as (r & Hr & Er).
  destruct (advise_raw compute
              (int_route (dA + kd) (sA + ks) (iA + ki))
              (int_route (dB + kd) (sB + ks) (iB + ki))
              p sim') as (r' & Hr' & Er').
  exists r, r'. split; [exact Hr|]. split; [exact Hr'|].
  rewrite Er, Er'. unfold clipped_inputs, compute_delta_inputs, int_route.
  simpl. rewrite !inject_Z_plus.
  repeat split; apply np_clip_comp; ring.
Qed.

(** X3: a delta beyond its universe is replaced by the nearest bound: a
    density difference of 200 or more is reported as 200 and one of -200 or
    less as -200, and likewise at 120 for speed and at 10 for incidents. *)
Theorem raw_saturates (compute : Py unit) (A B : Route) (p : PyVal)
    (sim : ControlSystemSimulation) :
  exists r,
    result_of (advise compute A B p) sim = inr r /\
    (200 <= density A - density B -> fst (fst (fst (raw r))) == 200) /\
    (density A - density B <= -200 -> fst (fst (fst (raw r))) == -200) /\
    (120 <= speed A - speed B -> snd (fst (fst (raw r))) == 120) /\
    (speed A - speed B <= -120 -> snd (fst (fst (raw r))) == -120) /\
    (10 <= incident B - incident A -> snd (fst (raw r)) == 10) /\
    (incident B - incident A <= -10 -> snd (fst (raw r)) == -10).
Proof.
  destruct (advise_raw compute A B p sim) as (r & Hr & Er).
  exists r. split; [exact Hr|]. rewrite Er.
  unfold clipped_inputs, compute_delta_inputs. simpl.
  repeat split; intros H;
    first [ apply np_clip_above; [discriminate | exact H]
          | apply np_clip_below; [discriminate | exact H] ].
Qed.

(** ** Rounding of the score *)

Lemma Qfloor_unique (t : Q) (z : Z) :
  inject_Z z <= t -> t < inject_Z z + 1 -> Qfloor t = z.
Proof.
  intros H1 H2.
  pose proof (Qfloor_le t) as F1. pose proof (Qlt_floor t) as F2.
  rewrite inject_Z_plus in F2. change (inject_Z 1) with 1 in F2.
  assert (A1 : inject_Z z < inject_Z (Qfloor t + 1)).
  { rewrite inject_Z_plus. change (inject_Z 1) with 1. lra. }
  assert (A2 : inject_Z (Qfloor t) < inject_Z (z + 1)).
  { rewrite inject_Z_plus. change (inject_Z 1) with 1. lra. }
  rewrite <- Zlt_Qlt in A1, A2. lia.
Qed.

Lemma Qdiv_100 (x : Q) : x / 100 == x * (1 # 100).
Proof. reflexivity. Qed.

(** The integer number of hundredths [round(score, 2)] picks. *)
Lemma py_round2_hundredths (s : Q) :
  exists n : Z,
    py_round2 s = inject_Z n / 100 /\
    - (1 # 2) <= inject_Z n - s * 100 /\ inject_Z n - s * 100 <= 1 # 2.
Proof.
  unfold py_round2.
  pose proof (Qfloor_le (s * 100)) as F1.
  pose proof (Qlt_floor (s * 100)) as F2.
  rewrite inject_Z_plus in F2. change (inject_Z 1) with 1 in F2.
  set (f := Qfloor (s * 100)) in *.
  assert (Ef : inject_Z (f + 1) == inject_Z f + 1).
  { rewrite inject_Z_plus. reflexivity. }
  destruct (Qlt_bool (s * 100 - inject_Z f) (1 # 2)) eqn:E1; bool_facts.
  { exists f. split; [reflexivity|]. lra. }
  destruct (Qlt_bool (1 # 2) (s * 100 - inject_Z f)) eqn:E2; bool_facts.
  { exists (f + 1)%Z. split; [reflexivity|]. lra. }
  destruct (Z.even f).
  - exists f. split; [reflexivity|]. lra.
  - exists (f + 1)%Z. split; [reflexivity|]. lra.
Qed.

Lemma py_round2_error (s : Q) :
  - (1 # 200) <= py_round2 s - s /\ py_round2 s - s <= 1 # 200.
Proof.
  destruct (py_round2_hundredths s) as (n & -> & H1 & H2).
  rewrite Qdiv_100. lra.
Qed.

Lemma py_round2_fixed (n : Z) :
  py_round2 (inject_Z n / 100) = inject_Z n / 100.
Proof.
  unfold py_round2.
  assert (Et : inject_Z n / 100 * 100 == inject_Z n).
  { rewrite Qdiv_100. ring. }
  assert (Ef : Qfloor (inject_Z n / 100 * 100) = n).
  { apply Qfloor_unique; lra. }
  rewrite Ef.
  assert (E1 : Qlt_bool (inject_Z n / 100 * 100 - inject_Z n) (1 # 2) = true).
  { apply Qlt_bool_iff. lra. }
  rewrite E1. reflexivity.
Qed.

(** X4: when the engine returns a crisp score, the score [advise] reports
    is a whole number of hundredths within 0.005 of it, and rounding it
    again changes nothing. *)
Theorem reported_score_is_rounded (compute : Py unit) (A B : Route)
    (p : PyVal) (sim sim2 : ControlSystemSimulation) (s : Q) :
  compute (after_stores sim (clipped_inputs A B p)) = (inr tt, sim2) ->
  output sim2 !! "delta_score" = Some s ->
  exists (r : Result) (n : Z),
    result_of (advise compute A B p) sim = inr r /\
    score r = inject_Z n / 100 /\
    - (1 # 200) <= score r - s /\ score r - s <= 1 # 200 /\
    py_round2 (score r) = score r.
Proof.
  intros Hc Ho. unfold result_of. rewrite advise_run, Hc. simpl.
  rewrite Ho. simpl.
  destruct (py_round2_hundredths s) as (n & En & _).
  eexists _, n. split; [reflexivity|]. simpl.
  split; [exact En|].
  destruct (py_round2_error s) as [H1 H2].
  split; [exact H1|]. split; [exact H2|].
  rewrite En. apply py_round2_fixed.
Qed.

Lemma reported_score_is_rounded_witness :
  exists (r : Result) (n : Z),
    result_of (advise (scoring_engine (7 # 3)) routeA1 routeB1 (PyInt 1))
              routing = inr r /\
    score r = inject_Z n / 100 /\
    - (1 # 200) <= score r - (7 # 3) /\ score r - (7 # 3) <= 1 # 200 /\
    py_round2 (score r) = score r.
Proof.
  eapply (reported_score_is_rounded (scoring_engine (7 # 3)) routeA1 routeB1
            (PyInt 1) routing).
  - reflexivity.
  - vm_compute. reflexivity.
Defined.

(** X5: the recommendation is taken from the score before rounding, so the
    reported score and the recommendation can disagree at the thresholds:
    a crisp score above 60 and up to 60.005 is reported as 60 with "Take
    Route A", and one from 39.995 to below 40 as 40 with "Take Route B",
    although 60 and 40 themselves mean "Both routes comparable". *)
Theorem rounded_score_at_threshold (compute : Py unit) (A B : Route)
    (p : PyVal) (sim sim2 : ControlSystemSimulation) (s : Q) :
  compute (after_stores sim (clipped_inputs A B p)) = (inr tt, sim2) ->
  output sim2 !! "delta_score" = Some s ->
  exists r : Result,
    result_of (advise compute A B p) sim = inr r /\
    (60 < s /\ s <= 12001 # 200 ->
       score r == 60 /\ recommendation r = TakeRouteA /\
       decide_rec (score r) = BothComparable) /\
    (7999 # 200 <= s /\ s < 40 ->
       score r == 40 /\ recommendation r = TakeRouteB /\
       decide_rec (score r) = BothComparable).
Proof.
  intros Hc Ho. unfold result_of. rewrite advise_run, Hc. simpl.
  rewrite Ho. simpl. eexists. split; [reflexivity|]. simpl. split.
  - intros [H1 H2].
    assert (Er : py_round2 s == 60).
    { unfold py_round2.
      assert (Ef : Qfloor (s * 100) = 6000%Z).
      { apply Qfloor_unique; change (inject_Z 6000) with 6000; lra. }
      rewrite Ef. change (inject_Z 6000) with 6000.
      destruct (Qlt_bool (s * 100 - 6000) (1 # 2)) eqn:E1; [reflexivity|].
      destruct (Qlt_bool (1 # 2) (s * 100 - 6000)) eqn:E2; [|reflexivity].
      exfalso. bool_facts. lra. }
    split; [exact Er|]. split.
    + unfold decide_rec.
      assert (E : Qlt_bool 60 s = true) by (apply Qlt_bool_iff; exact H1).
      rewrite E. reflexivity.
    + rewrite (decide_rec_comp _ 60 Er). reflexivity.
  - intros [H1 H2].
    assert (Er : py_round2 s == 40).
    { unfold py_round2.
      assert (Ef : Qfloor (s * 100) = 3999%Z).
      { apply Qfloor_unique; change (inject_Z 3999) with 3999; lra. }
      rewrite Ef. change (inject_Z 3999) with 3999.
      destruct (Qlt_bool (s * 100 - 3999) (1 # 2)) eqn:E1.
      { exfalso. bool_facts. lra. }
      destruct (Qlt_bool (1 # 2) (s * 100 - 3999)); reflexivity. }
    split; [exact Er|]. split.
    + unfold decide_rec.
      assert (E : Qlt_bool 60 s = false) by (apply Qlt_bool_false; lra).
      assert (E' : Qlt_bool s 40 = true) by (apply Qlt_bool_iff; exact H2).
      rewrite E, E'. reflexivity.
    + rewrite (decide_rec_comp _ 40 Er). reflexivity.
Qed.

Lemma rounded_score_at_threshold_witness :
  exists r : Result,
    result_of (advise (scoring_engine (24001 # 400)) routeA1 routeB1
                 (PyInt 1)) routing = inr r /\
    (60 < 24001 # 400 /\ 24001 # 400 <= 12001 # 200 ->
       score r == 60 /\ recommendation r = TakeRouteA /\
       decide_rec (score r) = BothComparable) /\
    (7999 # 200 <= 24001 # 400 /\ 24001 # 400 < 40 ->
       score r == 40 /\ recommendation r = TakeRouteB /\
       decide_rec (score r) = BothComparable).
Proof.
  eapply (rounded_score_at_threshold (scoring_engine (24001 # 400))
            routeA1 routeB1 (PyInt 1) routing).
  - reflexivity.
  - vm_compute. reflexivity.
Defined.

(** ** The three ways out of [advise] *)

Lemma decide_rec_tags (s : Q) :
  decide_rec s = TakeRouteA \/ decide_rec s = TakeRouteB \/
  decide_rec s = BothComparable.
Proof.
  unfold decide_rec.
  destruct (Qlt_bool 60 s); [tauto|].
  destruct (Qlt_bool s 40); tauto.
Qed.

(** X6: the recommendation tells which way [advise] returned: it is
    "Error/Neutral" exactly when the engine raised, "Ambiguous (No matching
    rules)" exactly when the engine returned and the shared output holds no
    ["delta_score"], and one of the three route recommendations exactly
    when the engine returned and a score is there. *)
Theorem recommendation_tells_path (compute : Py unit) (A B : Route)
    (p : PyVal) (sim : ControlSystemSimulation) :
  let outcome := compute (after_stores sim (clipped_inputs A B p)) in
  exists r : Result,
    result_of (advise compute A B p) sim = inr r /\
    (recommendation r = ErrorNeutral <-> exists e, fst outcome = inl e) /\
    (recommendation r = AmbiguousNoRules <->
       fst outcome = inr tt /\ output (snd outcome) !! "delta_score" = None) /\
    (recommendation r = TakeRouteA \/ recommendation r = TakeRouteB \/
     recommendation r = BothComparable <->
       fst outcome = inr tt /\
       exists s, output (snd outcome) !! "delta_score" = Some s).
Proof.
  cbv zeta. unfold result_of. rewrite advise_run.
  destruct (compute _) as [[e|[]] sim2]; simpl.
  - eexists. split; [reflexivity|]. simpl. split; [|split].
    + split; [eauto | reflexivity].
    + split; [discriminate | intros [H _]; discriminate].
    + split; [intros [H|[H|H]]; discriminate | intros [H _]; discriminate].
  - destruct (output sim2 !! "delta_score") as [s|] eqn:Ho; simpl;
      (eexists; split; [reflexivity|]); simpl.
    + split; [|split].
      * split; [|intros [e He]; discriminate].
        intros H. destruct (decide_rec_tags s) as [T|[T|T]];
          rewrite T in H; discriminate.
      * split; [|intros [_ H]; discriminate].
        intros H. destruct (decide_rec_tags s) as [T|[T|T]];
          rewrite T in H; discriminate.
      * split; [eauto | intros _; apply decide_rec_tags].
    + split; [|split].
      * split; [discriminate | intros [e He]; discriminate].
      * split; [auto | reflexivity].
      * split; [intros [H|[H|H]]; discriminate
               | intros [_ [s Hs]]; discriminate].
Qed.

(** ** Successive calls on the shared object *)

Lemma after_stores_twice (sim : ControlSystemSimulation)
    (v v' : Q * Q * Q * Z) :
  input (after_stores (after_stores sim v) v') = input (after_stores sim v').
Proof.
  destruct v as [[[dd ds] di] pv], v' as [[[dd' ds'] di'] pv'].
  unfold after_stores; simpl.
  apply map_eq. intros k.
  rewrite !lookup_insert.
  repeat case_decide; reflexivity.
Qed.

(** X7: the last call wins: with an engine that leaves the inputs alone,
    after two calls in a row the input dictionary of the shared object is
    what the second call alone would have left; nothing the first call
    stored survives. *)
Theorem second_call_overwrites_inputs (compute : Py unit)
    (A B A' B' : Route) (p p' : PyVal) (sim : ControlSystemSimulation) :
  (forall s, input (snd (compute s)) = input s) ->
  input (state_after (advise compute A B p ;; advise compute A' B' p') sim)
  = input (state_after (advise compute A' B' p') sim).
Proof.
  intros Hkeep.
  unfold state_after at 1. rewrite advise_then.
  fold (state_after (advise compute A' B' p')
          (state_after (advise compute A B p) sim)).
  rewrite !advise_state, !Hkeep.
  set (v := clipped_inputs A B p). set (v' := clipped_inputs A' B' p').
  assert (E : input (after_stores (snd (compute (after_stores sim v))) v')
              = input (after_stores (after_stores sim v) v')).
  { destruct v' as [[[dd' ds'] di'] pv']. unfold after_stores at 1 3.
    simpl. rewrite Hkeep. reflexivity. }
  rewrite E. apply after_stores_twice.
Qed.

Lemma second_call_overwrites_inputs_witness :
  input (state_after
           (advise engine_compute routeA1 routeB1 (PyInt 1) ;;
            advise engine_compute routeB1 routeA1 (PyInt 0)) routing)
  = input (state_after (advise engine_compute routeB1 routeA1 (PyInt 0))
             routing).
Proof.
  apply (second_call_overwrites_inputs engine_compute).
  exact engine_compute_keeps_input.
Defined.

(** ** Order of scores *)

(** X9: a higher crisp score never moves the recommendation towards B:
    ordering "Take Route B" below "Both routes comparable" below "Take
    Route A", the recommendation is monotone in the score. *)
Theorem recommendation_monotone (s s' : Q) :
  s <= s' -> (leaning (decide_rec s) <= leaning (decide_rec s'))%Z.
Proof.
  intros H. unfold decide_rec.
  destruct (Qlt_bool 60 s) eqn:E1, (Qlt_bool 60 s') eqn:E1';
    destruct (Qlt_bool s 40) eqn:E2, (Qlt_bool s' 40) eqn:E2';
    bool_facts; try (vm_compute; discriminate); exfalso; lra.
Qed.

Lemma recommendation_monotone_witness :
  (leaning (decide_rec 39) <= leaning (decide_rec 61))%Z.
Proof.
  apply (recommendation_monotone 39 61). discriminate.
Defined.

Lemma round_half_even_mono (f f' : Z) (r r' : Q) :
  0 <= r -> r < 1 -> 0 <= r' -> r' < 1 ->
  inject_Z f + r <= inject_Z f' + r' ->
  ((if Qlt_bool r (1 # 2) then f
    else if Qlt_bool (1 # 2) r then f + 1
    else if Z.even f then f else f + 1)
   <= (if Qlt_bool r' (1 # 2) then f'
       else if Qlt_bool (1 # 2) r' then f' + 1
       else if Z.even f' then f' else f' + 1))%Z.
Proof.
  intros R0 R1 R0' R1' H.
  assert (Hff : (f <= f')%Z).
  { assert (L : inject_Z f < inject_Z (f' + 1)).
    { rewrite inject_Z_plus. change (inject_Z 1) with 1. lra. }
    rewrite <- Zlt_Qlt in L. lia. }
  destruct (Z.eq_dec f f') as [<- | Hne].
  - assert (Hr : r <= r') by lra.
    destruct (Qlt_bool r (1 # 2)) eqn:E1, (Qlt_bool r' (1 # 2)) eqn:E1';
      destruct (Qlt_bool (1 # 2) r) eqn:E2, (Qlt_bool (1 # 2) r') eqn:E2';
      bool_facts; destruct (Z.even f); try lia; exfalso; lra.
  - assert (Hlt : (f + 1 <= f')%Z) by lia.
    destruct (Qlt_bool r (1 # 2)), (Qlt_bool (1 # 2) r), (Z.even f),
      (Qlt_bool r' (1 # 2)), (Qlt_bool (1 # 2) r'), (Z.even f'); lia.
Qed.

(** X10: rounding keeps the order of scores: of two crisp scores the
    larger one is never reported as the smaller. *)
Theorem py_round2_monotone (s s' : Q) :
  s <= s' -> py_round2 s <= py_round2 s'.
Proof.
  intros H. unfold py_round2.
  pose proof (Qfloor_le (s * 100)) as F1.
  pose proof (Qlt_floor (s * 100)) as F2.
  pose proof (Qfloor_le (s' * 100)) as F1'.
  pose proof (Qlt_floor (s' * 100)) as F2'.
  rewrite inject_Z_plus in F2, F2'.
  change (inject_Z 1) with 1 in F2, F2'.
  set (f := Qfloor (s * 100)) in *. set (f' := Qfloor (s' * 100)) in *.
  pose proof (round_half_even_mono f f'
                (s * 100 - inject_Z f) (s' * 100 - inject_Z f')) as M.
  assert (Hn : forall n n' : Z, (n <= n')%Z ->
                 inject_Z n / 100 <= inject_Z n' / 100).
  { intros n n' Hnn. rewrite Zle_Qle in Hnn. rewrite !Qdiv_100. lra. }
  apply Hn. apply M; lra.
Qed.

Lemma py_round2_monotone_witness : py_round2 (1 # 3) <= py_round2 (2 # 3).
Proof.
  apply (py_round2_monotone (1 # 3) (2 # 3)). discriminate.
Defined.

(** ** The demo table and the internal checks *)

Lemma inject_Z_sub (a b : Z) : inject_Z (a - b) = inject_Z a - inject_Z b.
Proof.
  unfold Z.sub, Qminus. rewrite inject_Z_plus, inject_Z_opp. reflexivity.
Qed.

Lemma advise_returns (compute : Py unit) (A B : Route) (p : PyVal)
    (sim : ControlSystemSimulation) :
  exists r sim1,
    advise compute A B p sim = (inr r, sim1) /\
    raw r = clipped_inputs A B p /\
    (route_tag (recommendation r) \/
     recommendation r = AmbiguousNoRules \/
     recommendation r = ErrorNeutral).
Proof.
  rewrite advise_run.
  destruct (compute _) as [[e|[]] sim2]; simpl.
  - eexists _, _. split; [reflexivity|]. simpl. auto.
  - destruct (output sim2 !! "delta_score") as [s|];
      eexists _, _; (split; [reflexivity|]); simpl; auto.
    split; [reflexivity|]. left. apply decide_rec_tags.
Qed.

(** X11: the loop of [generate_demo_csv] never raises, whatever the engine
    does: it yields exactly one row per draw, in the order of the draws,
    each row carrying the drawn measurements and peak flag unchanged. *)
Theorem demo_one_row_per_draw (compute : Py unit) (draws : list Scenario)
    (sim : ControlSystemSimulation) :
  exists rows sim',
    generate_demo_csv compute draws sim = (inr rows, sim') /\
    length rows = length draws /\
    Forall2 (fun d row =>
               A_density row = draw_A_density d /\
               A_speed row = draw_A_speed d /\
               A_incident row = draw_A_incident d /\
               B_density row = draw_B_density d /\
               B_speed row = draw_B_speed d /\
               B_incident row = draw_B_incident d /\
               peak row = draw_peak d) draws rows.
Proof.
  revert sim. induction draws as [|d draws IH]; intros sim.
  - exists [], sim. repeat split. constructor.
  - simpl. unfold mbind, Py_bind.
    destruct (advise_returns compute
                (int_route (draw_A_density d) (draw_A_speed d)
                           (draw_A_incident d))
                (int_route (draw_B_density d) (draw_B_speed d)
                           (draw_B_incident d))
                (PyInt (draw_peak d)) sim) as (r & sim1 & Hr & _).
    rewrite Hr.
    destruct (IH sim1) as (rows & sim' & Hrows & Hlen & Hall).
    rewrite Hrows. eexists _, _. split; [reflexivity|]. split.
    + simpl. rewrite Hlen. reflexivity.
    + constructor; [|exact Hall]. simpl. repeat split.
Qed.

(** X12: the demo data never reaches a bound: for every scenario the
    generator can draw (density 0..160, speed 10..100, incident 0..5,
    peak 0 or 1) the raw inputs of the [advise] call are the plain
    differences and the peak flag itself; nothing is clipped or coerced. *)
Theorem demo_draws_never_clipped (compute : Py unit) (d : Scenario)
    (sim : ControlSystemSimulation) :
  drawn d ->
  exists r,
    result_of
      (advise compute
         (int_route (draw_A_density d) (draw_A_speed d) (draw_A_incident d))
         (int_route (draw_B_density d) (draw_B_speed d) (draw_B_incident d))
         (PyInt (draw_peak d))) sim = inr r /\
    raw_equiv (raw r)
      (inject_Z (draw_A_density d - draw_B_density d),
       inject_Z (draw_A_speed d - draw_B_speed d),
       inject_Z (draw_B_incident d - draw_A_incident d),
       draw_peak d).
Proof.
  intros (Ha & Hb & Hc & Ha' & Hb' & Hc' & Hp).
  destruct (advise_raw compute
              (int_route (draw_A_density d) (draw_A_speed d)
                         (draw_A_incident d))
              (int_route (draw_B_density d) (draw_B_speed d)
                         (draw_B_incident d))
              (PyInt (draw_peak d)) sim) as (r & Hr & Er).
  exists r. split; [exact Hr|]. rewrite Er.
  unfold clipped_inputs, compute_delta_inputs, int_route, raw_equiv. simpl.
  assert (Hin : forall a b lo hi : Z,
             (lo <= a - b <= hi)%Z ->
             np_clip (inject_Z a - inject_Z b) (inject_Z lo) (inject_Z hi)
             == inject_Z (a - b)).
  { intros a b lo hi [L H].
    rewrite Zle_Qle in L, H. rewrite inject_Z_sub in L, H |- *.
    apply np_clip_inside; assumption. }
  split; [apply (Hin _ _ (-200)%Z 200%Z); lia|].
  split; [apply (Hin _ _ (-120)%Z 120%Z); lia|].
  split; [apply (Hin _ _ (-10)%Z 10%Z); lia|].
  destruct Hp as [-> | ->]; reflexivity.
Qed.

Lemma demo_draws_never_clipped_witness :
  exists r,
    result_of
      (advise idle_engine (int_route 160 10 0) (int_route 0 100 5) (PyInt 1))
      routing = inr r /\
    raw_equiv (raw r)
      (inject_Z (160 - 0), inject_Z (10 - 100), inject_Z (5 - 0), 1%Z).
Proof.
  apply (demo_draws_never_clipped idle_engine
           {| draw_A_density := 160; draw_A_speed := 10; draw_A_incident := 0;
              draw_B_density := 0; draw_B_speed := 100; draw_B_incident := 5;
              draw_peak := 1 |} routing).
  unfold drawn. simpl. repeat split; try discriminate. right. reflexivity.
Defined.

(** X13: [run_checks] never raises, whatever the engine does: it returns
    one row for each of its three cases, in order, and a row is marked
    passed exactly when the recommendation equals the expected one; a case
    answered with "Error/Neutral" or "Ambiguous (No matching rules)" is
    therefore always marked failed. *)
Theorem run_checks_rows (compute : Py unit) (sim : ControlSystemSimulation) :
  exists r1 r2 r3 sim',
    run_checks compute sim = (inr [r1; r2; r3], sim') /\
    chk_expected r1 = TakeRouteA /\
    chk_expected r2 = TakeRouteB /\
    chk_expected r3 = BothComparable /\
    Forall (fun r =>
              (chk_passed r = true <-> chk_rec r = chk_expected r) /\
              (chk_rec r = ErrorNeutral -> chk_passed r = false) /\
              (chk_rec r = AmbiguousNoRules -> chk_passed r = false))
           [r1; r2; r3].
Proof.
  unfold run_checks, tests. simpl. unfold mbind, Py_bind.
  destruct (advise_returns compute
              {| density := 20; speed := 80; incident := 0 |}
              {| density := 120; speed := 30; incident := 2 |}
              (PyInt 1) sim) as (x1 & s1 & H1 & _).
  rewrite H1.
  destruct (advise_returns compute
              {| density := 150; speed := 25; incident := 3 |}
              {| density := 40; speed := 70; incident := 0 |}
              (PyInt 1) s1) as (x2 & s2 & H2 & _).
  rewrite H2.
  destruct (advise_returns compute
              {| density := 80; speed := 50; incident := 1 |}
              {| density := 82; speed := 48; incident := 1 |}
              (PyInt 0) s2) as (x3 & s3 & H3 & _).
  rewrite H3. simpl.
  eexists _, _, _, _. split; [reflexivity|]. simpl.
  split; [reflexivity|]. split; [reflexivity|]. split; [reflexivity|].
  repeat constructor; simpl;
    try (apply String.eqb_eq); try (apply String.eqb_eq; assumption);
    intros E; rewrite E; reflexivity.
Qed.

(** X14: with the engine modelled from the specification, [run_checks]
    started on the fresh [routing] marks its two clear-winner cases failed
    and its neutral case passed: all three recommendations are "Both
    routes comparable". *)
Theorem run_checks_outcome :
  exists rows,
    result_of (run_checks engine_compute) routing = inr rows /\
    map chk_passed rows = [false; false; true] /\
    map chk_expected rows = [TakeRouteA; TakeRouteB; BothComparable] /\
    map chk_rec rows = [BothComparable; BothComparable; BothComparable].
Proof.
  eexists. split; [vm_compute; reflexivity|].
  repeat split; vm_compute; reflexivity.
Qed.

(** ** The command line *)

Section CommandLineProperties.

Variable parse_args : list string -> Z + Args.

(** X15: the command line runs a single query exactly when the parser
    returns a namespace (it has not exited), there are arguments,
    [--plot], [--demo] and [--run-checks] are all absent, [--advise] is
    given and all six measurements are given; the query is then made with
    exactly those measurements and the parsed peak flag, which is 0 or
    1. *)
Theorem main_advise_iff (argv : list string) (A B : Route) (pk : Z) :
  (main parse_args argv = Advise A B pk <->
   exists args,
     parse_args (tail argv) = inr args /\
     length argv <> 1%nat /\ arg_plot args = false /\
     arg_demo args = false /\ arg_run_checks args = false /\
     arg_advise args = true /\
     arg_tdA args = Some (density A) /\ arg_spA args = Some (speed A) /\
     arg_incA args = Some (incident A) /\
     arg_tdB args = Some (density B) /\ arg_spB args = Some (speed B) /\
     arg_incB args = Some (incident B) /\
     Z.b2z (arg_peak args) = pk) /\
  (main parse_args argv = Advise A B pk -> pk = 0%Z \/ pk = 1%Z).
Proof.
  assert (Hiff :
    main parse_args argv = Advise A B pk <->
    exists args,
      parse_args (tail argv) = inr args /\
      length argv <> 1%nat /\ arg_plot args = false /\
      arg_demo args = false /\ arg_run_checks args = false /\
      arg_advise args = true /\
      arg_tdA args = Some (density A) /\ arg_spA args = Some (speed A) /\
      arg_incA args = Some (incident A) /\
      arg_tdB args = Some (density B) /\ arg_spB args = Some (speed B) /\
      arg_incB args = Some (incident B) /\
      Z.b2z (arg_peak args) = pk).
  { destruct A as [dA sA iA], B as [dB sB iB]. unfold main.
    destruct (parse_args (tail argv)) as [status|args].
    { split; [discriminate | intros (? & H & _); discriminate]. }
    destruct args as [dm pl ad tdA spA incA tdB spB incB pk0 rc]. simpl.
    destruct (Nat.eqb_spec (length argv) 1) as [Hc|Hc].
    { split; [discriminate|].
      intros (? & [= <-] & H & _). contradiction. }
    destruct pl.
    { split; [discriminate|].
      intros (? & [= <-] & _ & H & _). discriminate. }
    destruct dm.
    { split; [discriminate|].
      intros (? & [= <-] & _ & _ & H & _). discriminate. }
    destruct rc.
    { split; [discriminate|].
      intros (? & [= <-] & _ & _ & _ & H & _). discriminate. }
    destruct ad.
    2:{ split; [discriminate|].
        intros (? & [= <-] & _ & _ & _ & _ & H & _). discriminate. }
    destruct tdA as [tdA|], spA as [spA|], incA as [incA|],
             tdB as [tdB|], spB as [spB|], incB as [incB|]; simpl;
      split; try discriminate;
      try (intros (? & [= <-] & _ & _ & _ & _ & _
                   & H1 & H2 & H3 & H4 & H5 & H6 & _);
           simpl in *; discriminate).
    - intros [= -> -> -> -> -> -> <-].
      eexists. split; [reflexivity|]. simpl. repeat split; assumption.
    - intros (? & [= <-] & _ & _ & _ & _ & _ & H1 & H2 & H3 & H4 & H5 & H6
              & H7). simpl in *.
      injection H1 as ->. injection H2 as ->. injection H3 as ->.
      injection H4 as ->. injection H5 as ->. injection H6 as ->.
      rewrite H7. reflexivity. }
  split; [exact Hiff|].
  intros H. apply Hiff in H.
  destruct H as (args & _ & _ & _ & _ & _ & _ & _ & _ & _ & _ & _ & _ & <-).
  destruct (arg_peak args); auto.
Qed.

(** X16: the command line exits early in two ways only: with the status
    of the parser when the parser exits, and with status 2 when the parser
    returns a namespace, there are arguments, [--plot], [--demo] and
    [--run-checks] are absent, [--advise] is given and at least one of the
    six measurements is missing. *)
Theorem main_exit_iff (argv : list string) (code : Z) :
  main parse_args argv = SysExit code <->
  parse_args (tail argv) = inl code \/
  (code = 2%Z /\
   exists args,
     parse_args (tail argv) = inr args /\
     length argv <> 1%nat /\ arg_plot args = false /\
     arg_demo args = false /\ arg_run_checks args = false /\
     arg_advise args = true /\
     (arg_tdA args = None \/ arg_spA args = None \/ arg_incA args = None \/
      arg_tdB args = None \/ arg_spB args = None \/ arg_incB args = None)).
Proof.
  unfold main.
  destruct (parse_args (tail argv)) as [status|args].
  { split.
    - intros [= ->]. left. reflexivity.
    - intros [[= ->]|(_ & ? & H & _)]; [reflexivity | discriminate]. }
  destruct args as [dm pl ad tdA spA incA tdB spB incB pk0 rc]. simpl.
  destruct (Nat.eqb_spec (length argv) 1) as [Hc|Hc].
  { split; [discriminate|].
    intros [H|(_ & ? & [= <-] & H & _)]; [discriminate | contradiction]. }
  destruct pl.
  { split; [discriminate|].
    intros [H|(_ & ? & [= <-] & _ & H & _)]; discriminate. }
  destruct dm.
  { split; [discriminate|].
    intros [H|(_ & ? & [= <-] & _ & _ & H & _)]; discriminate. }
  destruct rc.
  { split; [discriminate|].
    intros [H|(_ & ? & [= <-] & _ & _ & _ & H & _)]; discriminate. }
  destruct ad.
  2:{ split; [discriminate|].
      intros [H|(_ & ? & [= <-] & _ & _ & _ & _ & H & _)]; discriminate. }
  destruct tdA as [tdA|], spA as [spA|], incA as [incA|],
           tdB as [tdB|], spB as [spB|], incB as [incB|]; simpl;
    split;
    try (intros [= <-]; right; split; [reflexivity|];
         eexists; split; [reflexivity|]; simpl; repeat split; auto 10; fail);
    try (intros [H|(-> & _)]; [discriminate | reflexivity]);
    try discriminate.
  intros [H|(_ & ? & [= <-] & _ & _ & _ & _ & _ & H)]; [discriminate|].
  simpl in H. destruct H as [H|[H|[H|[H|[H|H]]]]]; discriminate.
Qed.

(** X17: measurements alone start no query: the command line opens the
    interactive menu exactly when the parser returns a namespace and
    either there are no arguments or none of [--plot], [--demo],
    [--run-checks], [--advise] is given, whatever measurements and peak
    flag the namespace holds. *)
Theorem main_menu_iff (argv : list string) :
  main parse_args argv = InteractiveMenu <->
  exists args,
    parse_args (tail argv) = inr args /\
    (length argv = 1%nat \/
     (arg_plot args = false /\ arg_demo args = false /\
      arg_run_checks args = false /\ arg_advise args = false)).
Proof.
  unfold main.
  destruct (parse_args (tail argv)) as [status|args].
  { split; [discriminate | intros (? & H & _); discriminate]. }
  destruct args as [dm pl ad tdA spA incA tdB spB incB pk0 rc]. simpl.
  destruct (Nat.eqb_spec (length argv) 1) as [Hc|Hc].
  { split; [|reflexivity]. intros _. eexists. split; [reflexivity|]. auto. }
  destruct pl, dm, rc, ad; simpl;
    try (split; [discriminate
                | intros (? & [= <-] & [H|(H1 & H2 & H3 & H4)]);
                  simpl in *; [contradiction | discriminate]]);
    try (split; [intros _; eexists; split; [reflexivity|]; simpl; auto
                | reflexivity]).
  destruct tdA, spA, incA, tdB, spB, incB; simpl;
    (split; [discriminate
            | intros (? & [= <-] & [H|(H1 & H2 & H3 & H4)]);
              simpl in *; [contradiction | discriminate]]).
Qed.

End CommandLineProperties.

(** ** The interactive menu *)

Section MenuProperties.

Variable strip : string -> string.
Variable float_of : string -> option Q.
Variable int_of : string -> option Z.

Lemma read_input_ok {A : Type} (conv : string -> option A)
    (stdin : list string) (v : A) (rest : list string) :
  read_input conv stdin = ReadOk v rest <->
  exists line, stdin = line :: rest /\ conv line = Some v.
Proof.
  unfold read_input. destruct stdin as [|line stdin'].
  - split; [discriminate | intros (l & H & _); discriminate].
  - destruct (conv line) as [w|] eqn:E.
    + split.
      * intros [= -> ->]. exists line. split; [reflexivity | exact E].
      * intros (l & [= -> ->] & H). rewrite E in H.
        injection H as ->. reflexivity.
    + split; [discriminate|].
      intros (l & [= -> ->] & H). rewrite E in H. discriminate.
Qed.

Lemma read_then_ok {A B : Type} (r : Read A)
    (k : A -> list string -> Read B) (w : B) (rest : list string) :
  read_then r k = ReadOk w rest <->
  exists v mid, r = ReadOk v mid /\ k v mid = ReadOk w rest.
Proof.
  destruct r as [|mid|v mid]; simpl.
  - split; [discriminate | intros (? & ? & H & _); discriminate].
  - split; [discriminate | intros (? & ? & H & _); discriminate].
  - split; [eauto|]. intros (v' & mid' & [= -> ->] & H). exact H.
Qed.

Lemma read_query_ok (stdin : list string) (A B : Route) (pk : Z)
    (rest : list string) :
  read_query float_of int_of stdin = ReadOk (A, B, pk) rest <->
  exists l1 l2 l3 l4 l5 l6 l7,
    stdin = l1 :: l2 :: l3 :: l4 :: l5 :: l6 :: l7 :: rest /\
    float_of l1 = Some (density A) /\ float_of l2 = Some (speed A) /\
    float_of l3 = Some (incident A) /\
    float_of l4 = Some (density B) /\ float_of l5 = Some (speed B) /\
    float_of l6 = Some (incident B) /\
    int_of l7 = Some pk.
Proof.
  destruct A as [dA sA iA], B as [dB sB iB]. unfold read_query. simpl.
  split.
  - intros H.
    repeat (apply read_then_ok in H;
            destruct H as (? & ? & ?%read_input_ok & H)).
    injection H as -> -> -> -> -> -> -> ->.
    repeat match goal with
           | E : exists line, _ /\ _ |- _ => destruct E as (? & -> & ?)
           end.
    eexists _, _, _, _, _, _, _. split; [reflexivity|].
    repeat split; assumption.
  - intros (l1 & l2 & l3 & l4 & l5 & l6 & l7 & -> & H1 & H2 & H3 & H4 & H5
            & H6 & H7).
    unfold read_input, read_then.
    rewrite H1, H2, H3, H4, H5, H6, H7. reflexivity.
Qed.

(** X18: choice 4 of the menu makes a query exactly when, after the choice
    line, seven more lines are read and all convert, six with [float]
    and the last with [int]; the query gets them in the order density,
    speed, incident of A, then of B, then the peak flag, which may be any
    integer; the lines after them are left unread. *)
Theorem menu_advise_iff (stdin : list string) (A B : Route) (pk : Z)
    (rest : list string) :
  interactive_menu strip float_of int_of stdin = (MenuAdvise A B pk, rest)
  <->
  exists c l1 l2 l3 l4 l5 l6 l7,
    stdin = c :: l1 :: l2 :: l3 :: l4 :: l5 :: l6 :: l7 :: rest /\
    strip c = "4"%string /\
    float_of l1 = Some (density A) /\ float_of l2 = Some (speed A) /\
    float_of l3 = Some (incident A) /\
    float_of l4 = Some (density B) /\ float_of l5 = Some (speed B) /\
    float_of l6 = Some (incident B) /\
    int_of l7 = Some pk.
Proof.
  unfold interactive_menu. destruct stdin as [|c stdin'].
  { split; [discriminate | intros (? & ? & ? & ? & ? & ? & ? & ? & H & _);
                           discriminate]. }
  destruct (String.eqb_spec (strip c) "1") as [E1|E1].
  { split; [discriminate|].
    intros (? & ? & ? & ? & ? & ? & ? & ? & [= <- _] & H & _).
    rewrite E1 in H. discriminate. }
  destruct (String.eqb_spec (strip c) "2") as [E2|E2].
  { split; [discriminate|].
    intros (? & ? & ? & ? & ? & ? & ? & ? & [= <- _] & H & _).
    rewrite E2 in H. discriminate. }
  destruct (String.eqb_spec (strip c) "3") as [E3|E3].
  { split; [discriminate|].
    intros (? & ? & ? & ? & ? & ? & ? & ? & [= <- _] & H & _).
    rewrite E3 in H. discriminate. }
  destruct (String.eqb_spec (strip c) "4") as [E4|E4].
  - destruct (read_query float_of int_of stdin') as [|r'|[[A' B'] pk'] r']
      eqn:Q.
    + split; [discriminate|].
      intros (c' & l1 & l2 & l3 & l4 & l5 & l6 & l7 & [= <- ->] & _ & H).
      assert (Q' : read_query float_of int_of
                     (l1 :: l2 :: l3 :: l4 :: l5 :: l6 :: l7 :: rest)
                   = ReadOk (A, B, pk) rest).
      { apply read_query_ok. eexists _, _, _, _, _, _, _.
        split; [reflexivity | exact H]. }
      rewrite Q' in Q. discriminate.
    + split; [discriminate|].
      intros (c' & l1 & l2 & l3 & l4 & l5 & l6 & l7 & [= <- ->] & _ & H).
      assert (Q' : read_query float_of int_of
                     (l1 :: l2 :: l3 :: l4 :: l5 :: l6 :: l7 :: rest)
                   = ReadOk (A, B, pk) rest).
      { apply read_query_ok. eexists _, _, _, _, _, _, _.
        split; [reflexivity | exact H]. }
      rewrite Q' in Q. discriminate.
    + split.
      * intros [= -> -> -> ->]. apply read_query_ok in Q.
        destruct Q as (l1 & l2 & l3 & l4 & l5 & l6 & l7 & -> & H).
        exists c, l1, l2, l3, l4, l5, l6, l7.
        split; [reflexivity|]. split; [exact E4 | exact H].
      * intros (c' & l1 & l2 & l3 & l4 & l5 & l6 & l7 & [= <- ->] & _ & H).
        assert (Q' : read_query float_of int_of
                       (l1 :: l2 :: l3 :: l4 :: l5 :: l6 :: l7 :: rest)
                     = ReadOk (A, B, pk) rest).
        { apply read_query_ok. eexists _, _, _, _, _, _, _.
          split; [reflexivity | exact H]. }
        rewrite Q' in Q. injection Q as <- <- <- <-. reflexivity.
  - split; [discriminate|].
    intros (? & ? & ? & ? & ? & ? & ? & ? & [= <- _] & H & _).
    contradiction.
Qed.

End MenuProperties.

Section MenuErrors.

Variable strip : string -> string.
Variable float_of : string -> option Q.
Variable int_of : string -> option Z.

(** X19: at choice 4, when the first lines convert but the input ends
    before all seven values are read, the menu ends in [EOFError], which
    it does not catch; when instead the next line does not convert (with
    [float] for the first six values, with [int] for the peak flag), the
    menu reports invalid input, makes no query and leaves the lines after
    the offending one unread. *)
Theorem menu_bad_input (c : string) (pre : list string) :
  strip c = "4"%string ->
  (length pre <= 6)%nat ->
  Forall (fun l => is_Some (float_of l)) pre ->
  interactive_menu strip float_of int_of (c :: pre) = (MenuEOFError, []) /\
  forall (bad : string) (rest : list string),
    (if Nat.eqb (length pre) 6 then int_of bad = None
     else float_of bad = None) ->
    interactive_menu strip float_of int_of (c :: pre ++ bad :: rest)
    = (MenuInvalidInput, rest).
Proof.
  intros Hc Hlen Hall. unfold interactive_menu. rewrite Hc. simpl.
  unfold read_query, read_then, read_input.
  destruct pre as [|l1 pre].
  { split; [reflexivity|]. intros bad rest Hb. simpl in *.
    rewrite Hb. reflexivity. }
  apply Forall_cons in Hall. destruct Hall as [[v1 Hv1] Hall].
  simpl. rewrite Hv1.
  destruct pre as [|l2 pre].
  { split; [reflexivity|]. intros bad rest Hb. simpl in *.
    rewrite Hb. reflexivity. }
  apply Forall_cons in Hall. destruct Hall as [[v2 Hv2] Hall].
  simpl. rewrite Hv2.
  destruct pre as [|l3 pre].
  { split; [reflexivity|]. intros bad rest Hb. simpl in *.
    rewrite Hb. reflexivity. }
  apply Forall_cons in Hall. destruct Hall as [[v3 Hv3] Hall].
  simpl. rewrite Hv3.
  destruct pre as [|l4 pre].
  { split; [reflexivity|]. intros bad rest Hb. simpl in *.
    rewrite Hb. reflexivity. }
  apply Forall_cons in Hall. destruct Hall as [[v4 Hv4] Hall].
  simpl. rewrite Hv4.
  destruct pre as [|l5 pre].
  { split; [reflexivity|]. intros bad rest Hb. simpl in *.
    rewrite Hb. reflexivity. }
  apply Forall_cons in Hall. destruct Hall as [[v5 Hv5] Hall].
  simpl. rewrite Hv5.
  destruct pre as [|l6 pre].
  { split; [reflexivity|]. intros bad rest Hb. simpl in *.
    rewrite Hb. reflexivity. }
  apply Forall_cons in Hall. destruct Hall as [[v6 Hv6] Hall].
  simpl. rewrite Hv6.
  destruct pre as [|l7 pre].
  { split; [reflexivity|]. intros bad rest Hb. simpl in *.
    rewrite Hb. reflexivity. }
  simpl in Hlen. lia.
Qed.

End MenuErrors.

Lemma menu_bad_input_witness :
  interactive_menu (fun s => s)
    (fun s => if String.eqb s "x" then None else Some 1)
    (fun _ => None) ["4"; "10"; "20"]%string = (MenuEOFError, []) /\
  forall (bad : string) (rest : list string),
    (if Nat.eqb (length ["10"; "20"]%string) 6
     then (fun _ : string => @None Z) bad = None
     else (fun s => if String.eqb s "x" then None else Some 1) bad = None) ->
    interactive_menu (fun s => s)
      (fun s => if String.eqb s "x" then None else Some 1)
      (fun _ => None) ("4"%string :: ["10"; "20"]%string ++ bad :: rest)
    = (MenuInvalidInput, rest).
Proof.
  apply (menu_bad_input (fun s => s)
           (fun s => if String.eqb s "x" then None else Some 1)
           (fun _ => None) "4"%string ["10"; "20"]%string).
  - reflexivity.
  - simpl. lia.
  - repeat constructor; eexists; reflexivity.
Defined.

(** ** The tables of fuzzy sets and rules *)

Ltac table_cases H :=
  rewrite !lookup_insert in H; repeat case_decide;
  try (rewrite lookup_empty in H; discriminate H);
  injection H as <-; simpl; repeat split; discriminate.

(** X20: the tables are well formed: every fuzzy set of the four delta
    inputs and of [delta_score] has its parameters in ascending order, and
    every rule names fuzzy sets that are defined, in its antecedent and in
    its consequent. *)
Theorem rule_base_well_formed :
  (forall var v label sh,
      antecedents !! var = Some v -> v !! label = Some sh -> valid_shape sh) /\
  (forall label sh, delta_score !! label = Some sh -> valid_shape sh) /\
  Forall (fun r => terms_defined (antecedent r) /\
                   is_Some (delta_score !! consequent r)) rules.
Proof.
  split; [|split].
  - intros var v label sh Hv Hsh. unfold antecedents in Hv.
    rewrite !lookup_insert in Hv. repeat case_decide;
      try (rewrite lookup_empty in Hv; discriminate Hv);
      injection Hv as <-.
    + unfold delta_time_peak in Hsh. table_cases Hsh.
    + unfold delta_incident in Hsh. table_cases Hsh.
    + unfold delta_speed in Hsh. table_cases Hsh.
    + unfold delta_density in Hsh. table_cases Hsh.
  - intros label sh Hsh. unfold delta_score in Hsh. table_cases Hsh.
  - unfold rules, rule.
    repeat (apply Forall_cons; split;
            [split;
             [simpl; repeat split; eexists _, _;
              (split; vm_compute; reflexivity)
             | eexists; vm_compute; reflexivity]|]).
    apply Forall_nil. exact I.
Qed.
